(** * Tenant - Real Estate Management API: the request handlers of [main.py]

    A shallow embedding of the FastAPI handlers of [main.py] and of the model
    registry of [schemas.py], with the properties of the generic collection
    gateway, the upload handler, the schema introspection and the diagnostics
    endpoint.

    Layout:
    - Python data: [str] as a sequence of code points, [bytes], UTF-8
      decoding with its error handlers, the string methods the handlers call;
    - values and documents (dicts as finite maps);
    - handlers as programs over the calls of the document store;
    - the properties. *)

From Stdlib Require Import ZArith NArith List Strings.String Strings.Ascii Strings.Byte Lia.
From stdpp Require Import gmap strings list fin_maps.

Set Warnings "-register-all,-clear-no-such-hyp".
Local Open Scope N_scope.

(** ** Python strings and bytes *)

(** A Python [str] is a sequence of Unicode code points, a [bytes] a sequence
    of octets. *)
Abbreviation str := (list N).
Abbreviation bytes := (list byte).

(** The exceptions the handlers raise or catch. *)
Inductive exn : Type :=
| HTTPException (status_code : Z) (detail : str)
| UnicodeDecodeError (reason : string)
| Exception (msg : str).

Inductive Result (A : Type) : Type :=
| Ok (a : A)
| Err (e : exn).
Arguments Ok {A} a.
Arguments Err {A} e.

(** *** [bytes.decode(encoding="utf-8", errors=...)] *)

(** The error handlers of a codec: ["strict"], ["ignore"], ["replace"]. *)
Inductive errors : Type := Strict | Ignore | Replace.

Definition emit {A} (c : A) (r : Result (list A)) : Result (list A) :=
  match r with
  | Ok s => Ok (c :: s)
  | Err e => Err e
  end.

(** What the decoder does with an ill-formed subsequence, [r] being the
    decoding of what follows it. *)
Definition on_error (h : errors) (reason : string) (r : Result str) : Result str :=
  match h with
  | Strict => Err (UnicodeDecodeError reason)
  | Ignore => r
  | Replace => emit 0xFFFD r
  end.

Definition is_continuation (b : N) : bool := N.land b 0xC0 =? 0x80.

(** The second byte of a three or four byte sequence: a continuation byte that
    gives neither an overlong form, nor a surrogate, nor a code point above
    U+10FFFF. *)
Definition second_ok (b0 b1 : N) : bool :=
  is_continuation b1 &&
  (if b0 =? 0xE0 then 0xA0 <=? b1
   else if b0 =? 0xED then b1 <? 0xA0
   else if b0 =? 0xF0 then 0x90 <=? b1
   else if b0 =? 0xF4 then b1 <? 0x90
   else true).

Definition cont_bits (b : N) : N := N.land b 0x3F.

Definition cp2 (b0 b1 : N) : N :=
  N.lor (N.shiftl (N.land b0 0x1F) 6) (cont_bits b1).
Definition cp3 (b0 b1 b2 : N) : N :=
  N.lor (N.shiftl (N.land b0 0x0F) 12)
        (N.lor (N.shiftl (cont_bits b1) 6) (cont_bits b2)).
Definition cp4 (b0 b1 b2 b3 : N) : N :=
  N.lor (N.shiftl (N.land b0 0x07) 18)
        (N.lor (N.shiftl (cont_bits b1) 12)
               (N.lor (N.shiftl (cont_bits b2) 6) (cont_bits b3))).

Definition e_start : string := "invalid start byte".
Definition e_cont : string := "invalid continuation byte".
Definition e_end : string := "unexpected end of data".

(** The UTF-8 decoder.  An ill-formed subsequence is the lead byte alone when
    the lead byte or its second byte is wrong, and the well-formed prefix of the
    sequence otherwise; decoding resumes right after it. *)
Fixpoint decode_utf8 (h : errors) (s : bytes) : Result str :=
  match s with
  | [] => Ok []
  | x0 :: s1 =>
    let b0 := Byte.to_N x0 in
    if b0 <? 0x80 then emit b0 (decode_utf8 h s1)
    else if b0 <? 0xC2 then on_error h e_start (decode_utf8 h s1)
    else if b0 <? 0xE0 then
      match s1 with
      | [] => on_error h e_end (Ok [])
      | x1 :: s2 =>
        let b1 := Byte.to_N x1 in
        if is_continuation b1 then emit (cp2 b0 b1) (decode_utf8 h s2)
        else on_error h e_cont (decode_utf8 h s1)
      end
    else if b0 <? 0xF0 then
      match s1 with
      | [] => on_error h e_end (Ok [])
      | x1 :: s2 =>
        let b1 := Byte.to_N x1 in
        if second_ok b0 b1 then
          match s2 with
          | [] => on_error h e_end (Ok [])
          | x2 :: s3 =>
            let b2 := Byte.to_N x2 in
            if is_continuation b2 then emit (cp3 b0 b1 b2) (decode_utf8 h s3)
            else on_error h e_cont (decode_utf8 h s2)
          end
        else on_error h e_cont (decode_utf8 h s1)
      end
    else if b0 <? 0xF5 then
      match s1 with
      | [] => on_error h e_end (Ok [])
      | x1 :: s2 =>
        let b1 := Byte.to_N x1 in
        if second_ok b0 b1 then
          match s2 with
          | [] => on_error h e_end (Ok [])
          | x2 :: s3 =>
            let b2 := Byte.to_N x2 in
            if is_continuation b2 then
              match s3 with
              | [] => on_error h e_end (Ok [])
              | x3 :: s4 =>
                let b3 := Byte.to_N x3 in
                if is_continuation b3
                then emit (cp4 b0 b1 b2 b3) (decode_utf8 h s4)
                else on_error h e_cont (decode_utf8 h s3)
              end
            else on_error h e_cont (decode_utf8 h s2)
          end
        else on_error h e_cont (decode_utf8 h s1)
      end
    else on_error h e_start (decode_utf8 h s1)
  end.

(** [raw.decode(errors=h)]: the encoding defaults to UTF-8. *)
Definition decode (raw : bytes) (h : errors) : Result str := decode_utf8 h raw.

(** A string literal of the source, as its code points. *)
Definition u (lit : string) : str :=
  match decode_utf8 Ignore (list_byte_of_string lit) with
  | Ok s => s
  | Err _ => []
  end.

(** The line feed, which a literal of this file cannot hold. *)
Definition LF : string := String (ascii_of_N 10) EmptyString.

(** *** The string methods the handlers call *)

(** [s.lower()] on the ASCII range.  Outside it Python maps a code point to
    code points outside ASCII, but for U+212A (to k) and U+0130 (to i followed
    by U+0307); neither image occurs in an extension the handlers test, so the
    suffix tests below are the ones of the full mapping. *)
Definition lower_char (c : N) : N :=
  if (0x41 <=? c) && (c <=? 0x5A) then c + 0x20 else c.
Definition lower (s : str) : str := map lower_char s.

Definition str_eqb (s t : str) : bool := bool_decide (s = t).

(** [s.endswith(suffix)] *)
Definition endswith (s suffix : str) : bool :=
  (length suffix <=? length s)%nat &&
  str_eqb (drop (length s - length suffix)%nat s) suffix.

(** [s.endswith((suffix1, suffix2, ...))] *)
Definition endswith_any (s : str) (suffixes : list str) : bool :=
  existsb (endswith s) suffixes.

(** [str.isspace] on one code point. *)
Definition is_space (c : N) : bool :=
  ((0x09 <=? c) && (c <=? 0x0D)) || ((0x1C <=? c) && (c <=? 0x20))
  || (c =? 0x85) || (c =? 0xA0) || (c =? 0x1680)
  || ((0x2000 <=? c) && (c <=? 0x200A))
  || (c =? 0x2028) || (c =? 0x2029) || (c =? 0x202F) || (c =? 0x205F)
  || (c =? 0x3000).

Fixpoint lstrip (s : str) : str :=
  match s with
  | [] => []
  | c :: s' => if is_space c then lstrip s' else s
  end.
Definition rstrip (s : str) : str := rev (lstrip (rev s)).
(** [s.strip()] *)
Definition strip (s : str) : str := rstrip (lstrip s).

(** [s.split(sep)] for a separator of one character. *)
Fixpoint split (s : str) (sep : N) : list str :=
  match s with
  | [] => [[]]
  | c :: s' =>
    if c =? sep then [] :: split s' sep
    else match split s' sep with
         | piece :: pieces => (c :: piece) :: pieces
         | [] => [[c]]
         end
  end.

(** Truth value of an [Optional[str]]: [None] and the empty string are false. *)
Definition truthy (o : option str) : bool :=
  match o with
  | Some (_ :: _) => true
  | _ => false
  end.

(** [a or b] with [b] a string. *)
Definition or_str (a : option str) (b : str) : str :=
  match a with
  | Some (c :: s) => c :: s
  | _ => b
  end.

(** ** Values and documents *)

(** The values a document or a JSON body holds.  A dict is a finite map from
    its keys; [VObjectId] is the store's native identifier. *)
Inductive Value : Type :=
| VNone
| VBool (b : bool)
| VInt (n : Z)
| VStr (s : str)
| VObjectId (oid : N)
| VList (l : list Value)
| VDict (d : gmap str Value).

Abbreviation Doc := (gmap str Value).

(** An [Optional[str]] as a value. *)
Definition VOpt (o : option str) : Value :=
  match o with
  | Some s => VStr s
  | None => VNone
  end.

(** [o is None] *)
Definition is_None {A} (o : option A) : bool :=
  match o with
  | None => true
  | Some _ => false
  end.

(** ** Handlers over the document store *)

(** The calls into the store: [get_documents] and [create_document] of the
    [database] module, and [db.list_collection_names()]. *)
Inductive StoreCall : Type -> Type :=
| get_documents (collection_name : str) (limit : Z) : StoreCall (list Doc)
| create_document (collection_name : str) (data : Doc) : StoreCall str
| list_collection_names : StoreCall (list str).

(** A handler returns, raises, or calls the store and goes on with what the
    call returned or raised. *)
Inductive Handler (A : Type) : Type :=
| Return (a : A)
| Raise (e : exn)
| Call {X : Type} (c : StoreCall X) (k : X -> Handler A) (h : exn -> Handler A).
Arguments Return {A} a.
Arguments Raise {A} e.
Arguments Call {A X} c k h.

Definition call {X} (c : StoreCall X) : Handler X := Call c Return Raise.

Fixpoint bind {A B} (p : Handler A) (f : A -> Handler B) : Handler B :=
  match p with
  | Return a => f a
  | Raise e => Raise e
  | Call c k h => Call c (fun x => bind (k x) f) (fun e => bind (h e) f)
  end.

(** [try: p except Exception as e: handler e] *)
Fixpoint try_except {A} (p : Handler A) (handler : exn -> Handler A) : Handler A :=
  match p with
  | Return a => Return a
  | Raise e => handler e
  | Call c k h =>
    Call c (fun x => try_except (k x) handler) (fun e => try_except (h e) handler)
  end.

#[export] Instance Handler_ret : MRet Handler := @Return.
#[export] Instance Handler_bind : MBind Handler := fun A B f p => bind p f.

(** A handler that returns or raises at once makes no call. *)
Definition touches_store {A} (p : Handler A) : bool :=
  match p with
  | Call _ _ _ => true
  | _ => false
  end.

(** A store: how each call answers in a state of the store, and the state it
    leaves. *)
Definition Exec (S : Type) : Type := forall X, StoreCall X -> S -> Result X * S.

Fixpoint run {S A} (exec : Exec S) (p : Handler A) (s : S) : Result A * S :=
  match p with
  | Return a => (Ok a, s)
  | Raise e => (Err e, s)
  | Call c k h =>
    match exec _ c s with
    | (Ok x, s') => run exec (k x) s'
    | (Err e, s') => run exec (h e) s'
    end
  end.

(** The status of the HTTP response: an [HTTPException] carries its own, any
    other exception that leaves a handler is an internal server error. *)
Definition status_code_of {A} (r : Result A) : Z :=
  match r with
  | Ok _ => 200
  | Err (HTTPException status_code _) => status_code
  | Err _ => 500
  end.

(** ** schemas.py *)

(** The annotation of a field. *)
Inductive Annotation : Type :=
| TStr | TInt | TFloat | TBool | TDate | TEmailStr
| TLiteral (choices : list string)
| TOptional (t : Annotation)
| TList (t : Annotation).

(** [Field(...)] means required; otherwise the default value. *)
Inductive Default : Type :=
| Required
| DefaultTo (v : Value).

Record FieldInfo : Type := mkField {
  field_name : string;
  annotation : Annotation;
  default : Default;
  description : option string;
  ge : option Z
}.

(** A class statement: its name, its bases and its fields in order. *)
Record ClassDef : Type := mkClass {
  class_name : string;
  bases : list string;
  fields : list FieldInfo
}.

Definition field (name : string) (t : Annotation) (d : Default)
    (description : string) : FieldInfo :=
  mkField name t d (Some description) None.
Definition plain (name : string) (t : Annotation) (d : Default) : FieldInfo :=
  mkField name t d None None.
Definition field_ge (name : string) (t : Annotation) (d : Default) (bound : Z) : FieldInfo :=
  mkField name t d None (Some bound).

Definition Tenant : ClassDef := mkClass "Tenant" ["BaseModel"] [
  field "first_name" TStr Required "Tenant first name";
  field "last_name" TStr Required "Tenant last name";
  field "email" (TOptional TEmailStr) (DefaultTo VNone) "Contact email";
  field "phone" (TOptional TStr) (DefaultTo VNone) "Contact phone";
  field "current_property_id" (TOptional TStr) (DefaultTo VNone) "Linked property ID if any";
  field "notes" (TOptional TStr) (DefaultTo VNone) "Additional notes" ].

Definition Owner : ClassDef := mkClass "Owner" ["BaseModel"] [
  field "first_name" TStr Required "Owner first name";
  field "last_name" TStr Required "Owner last name";
  field "email" (TOptional TEmailStr) (DefaultTo VNone) "Contact email";
  field "phone" (TOptional TStr) (DefaultTo VNone) "Contact phone";
  field "company" (TOptional TStr) (DefaultTo VNone) "Company name if applicable" ].

Definition Property : ClassDef := mkClass "Property" ["BaseModel"] [
  field "title" TStr Required "Property title or reference";
  field "address" TStr Required "Full address";
  plain "city" (TOptional TStr) (DefaultTo VNone);
  plain "state" (TOptional TStr) (DefaultTo VNone);
  plain "postal_code" (TOptional TStr) (DefaultTo VNone);
  plain "country" (TOptional TStr) (DefaultTo VNone);
  field "owner_id" (TOptional TStr) (DefaultTo VNone) "Linked owner ID";
  plain "type"
    (TOptional (TLiteral ["apartment"; "house"; "condo"; "land"; "office";
                          "retail"; "industrial"; "other"]))
    (DefaultTo (VStr (u "apartment")));
  field_ge "bedrooms" (TOptional TInt) (DefaultTo VNone) 0;
  field_ge "bathrooms" (TOptional TFloat) (DefaultTo VNone) 0;
  field_ge "area_sqft" (TOptional TFloat) (DefaultTo VNone) 0 ].

Definition Lease : ClassDef := mkClass "Lease" ["BaseModel"] [
  field "tenant_id" TStr Required "Tenant ID";
  field "property_id" TStr Required "Property ID";
  plain "start_date" TDate Required;
  plain "end_date" (TOptional TDate) (DefaultTo VNone);
  field_ge "monthly_rent" TFloat Required 0;
  field_ge "deposit" (TOptional TFloat) (DefaultTo (VInt 0)) 0;
  plain "status" (TLiteral ["active"; "pending"; "ended"]) (DefaultTo (VStr (u "active"))) ].

Definition Sale : ClassDef := mkClass "Sale" ["BaseModel"] [
  plain "property_id" TStr Required;
  plain "buyer_name" TStr Required;
  plain "seller_owner_id" (TOptional TStr) (DefaultTo VNone);
  field_ge "price" TFloat Required 0;
  plain "date_closed" (TOptional TDate) (DefaultTo VNone);
  plain "status" (TLiteral ["listed"; "under_contract"; "sold"; "cancelled"])
    (DefaultTo (VStr (u "listed"))) ].

Definition Expense : ClassDef := mkClass "Expense" ["BaseModel"] [
  plain "property_id" (TOptional TStr) (DefaultTo VNone);
  plain "category"
    (TLiteral ["maintenance"; "tax"; "utilities"; "insurance"; "management"; "other"])
    (DefaultTo (VStr (u "other")));
  field_ge "amount" TFloat Required 0;
  plain "description" (TOptional TStr) (DefaultTo VNone);
  plain "expense_date" TDate Required;
  plain "paid" TBool (DefaultTo (VBool false)) ].

Definition Document : ClassDef := mkClass "Document" ["BaseModel"] [
  field "title" TStr Required "Human-friendly title";
  field "file_id" (TOptional TStr) (DefaultTo VNone) "GridFS file id";
  plain "filename" (TOptional TStr) (DefaultTo VNone);
  plain "content_type" (TOptional TStr) (DefaultTo VNone);
  plain "tags" (TList TStr) (DefaultTo (VList []));
  plain "related_type"
    (TOptional (TLiteral ["tenant"; "owner"; "property"; "lease"; "sale"; "expense";
                          "general"]))
    (DefaultTo (VStr (u "general")));
  plain "related_id" (TOptional TStr) (DefaultTo VNone);
  plain "extracted_text" (TOptional TStr) (DefaultTo VNone);
  plain "extracted_summary" (TOptional TStr) (DefaultTo VNone) ].

(** What a name of a module is bound to: a class, or some other value. *)
Inductive PyObject : Type :=
| PyClass (c : ClassDef)
| PyValue (v : Value).

(** The classes the module [schemas] defines, under their names. *)
Definition schemas : gmap str PyObject :=
  list_to_map
    (map (fun c => (u (class_name c), PyClass c))
         [Tenant; Owner; Property; Lease; Sale; Expense; Document]).

(** [getattr(module, name, None)] *)
Definition getattr (module : gmap str PyObject) (name : str) : PyObject :=
  match module !! name with
  | Some o => o
  | None => PyValue VNone
  end.

(** [issubclass(model, BaseModel)]: a [TypeError] when [model] is no class. *)
Definition issubclass (model : PyObject) (base : string) : Result bool :=
  match model with
  | PyClass c => Ok (bool_decide (base ∈ bases c))
  | PyValue _ => Err (Exception (u "issubclass() arg 1 must be a class"))
  end.

Definition lift {A} (r : Result A) : Handler A :=
  match r with
  | Ok a => Return a
  | Err e => Raise e
  end.

(** ** main.py *)

(** An uploaded file: its name and content type as the client sent them, and
    what [await file.read()] returns. *)
Record UploadFile : Type := mkUploadFile {
  filename : option str;
  content_type : option str;
  read : bytes
}.

Definition is_py_None (o : PyObject) : bool :=
  match o with
  | PyValue VNone => true
  | _ => false
  end.

Definition VALID_COLLECTIONS : gset str :=
  {[ u "tenant"; u "owner"; u "property"; u "lease"; u "sale"; u "expense";
     u "document" ]}.

Definition model_names : list str :=
  [u "Tenant"; u "Owner"; u "Property"; u "Lease"; u "Sale"; u "Expense"; u "Document"].

Section Handlers.
Context {Database : Type}.
(** [database.db]: the store handle, [None] when the store is not
    configured. *)
Variable db : option Database.
(** The builtin [str()], on values and on exceptions. *)
Variable str_of : Value -> str.
Variable str_exn : exn -> str.
(** [os.getenv], [importlib.import_module], and pydantic's
    [model.model_json_schema()]. *)
Variable getenv : str -> option str.
Variable import_module : str -> Result (gmap str PyObject).
Variable model_json_schema : PyObject -> Value.

(** *** Root and health *)

Definition read_root : Handler Value :=
  mret (VDict {[ u "message" := VStr (u "Tenant API running") ]}).

Definition set_or_not (name : str) : Value :=
  VStr (if truthy (getenv name) then u "✅ Set" else u "❌ Not Set").

(** No statement of the outer [try] raises outside the inner one, whose
    handler catches what the listing raises: nothing reaches the outer
    handler. *)
Definition test_database : Handler Value :=
  let response : Doc :=
    {[ u "backend" := VStr (u "✅ Running");
       u "database" := VStr (u "❌ Not Available");
       u "database_url" := VNone;
       u "database_name" := VNone;
       u "connection_status" := VStr (u "Not Connected");
       u "collections" := VList [] ]} in
  response ←
    try_except
      (if negb (is_None db) then
         let response := <[u "database" := VStr (u "✅ Connected & Working")]> response in
         let response := <[u "database_url" := set_or_not (u "DATABASE_URL")]> response in
         let response := <[u "database_name" := set_or_not (u "DATABASE_NAME")]> response in
         try_except
           (collections ← call list_collection_names;
            mret (<[u "collections" := VList (map VStr (take 20 collections))]> response))
           (fun e =>
              mret (<[u "database" :=
                        VStr (u "⚠️ Connected but Error: " ++ take 80 (str_exn e))]>
                      response))
       else
         mret (<[u "database" := VStr (u "⚠️ Available but not initialized")]> response))
      (fun e =>
         mret (<[u "database" := VStr (u "❌ Error: " ++ take 80 (str_exn e))]> response));
  mret (VDict response).

(** *** Schemas introspection *)

Fixpoint get_schema_loop (schemas_mod : gmap str PyObject) (names : list str)
    (out : Doc) : Handler Doc :=
  match names with
  | [] => mret out
  | name :: names' =>
    let model := getattr schemas_mod name in
    is_model ←
      (if negb (is_py_None model) then lift (issubclass model "BaseModel")
       else mret false);
    if is_model : bool
    then get_schema_loop schemas_mod names' (<[lower name := model_json_schema model]> out)
    else get_schema_loop schemas_mod names' out
  end.

Definition get_schema : Handler Value :=
  match import_module (u "schemas") with
  | Err e =>
    Raise (HTTPException 500 (u "Unable to import schemas: " ++ str_exn e))
  | Ok schemas_mod =>
    out ← get_schema_loop schemas_mod model_names ∅;
    mret (VDict out)
  end.

(** *** Generic list and create *)

Definition normalize (doc : Doc) : Doc :=
  map_fold (fun k v (d : Doc) =>
              if bool_decide (k = u "_id") then <[k := VStr (str_of v)]> d
              else <[k := v]> d)
           ∅ doc.

Definition list_items (collection : str) (limit : Z) : Handler Value :=
  if is_None db then
    Raise (HTTPException 500 (u "Database not configured"))
  else if bool_decide (collection ∉ VALID_COLLECTIONS) then
    Raise (HTTPException 404 (u "Collection not found"))
  else
    items ← call (get_documents collection limit);
    mret (VDict {[ u "items" := VList (map (fun i => VDict (normalize i)) items) ]}).

Definition create_item (collection : str) (payload : Doc) : Handler Value :=
  if is_None db then
    Raise (HTTPException 500 (u "Database not configured"))
  else if bool_decide (collection ∉ VALID_COLLECTIONS) then
    Raise (HTTPException 404 (u "Collection not found"))
  else
    inserted_id ← call (create_document collection payload);
    mret (VDict {[ u "id" := VStr inserted_id; u "message" := VStr (u "Created") ]}).

(** *** File upload and lightweight extraction *)

(** The extraction steps of [upload_document], from [extracted_text = None]
    to the last assignment of [extracted_text]. *)
Definition extract_text (filename : str) (raw : bytes) : option str :=
  let extracted_text : option str := None in
  let extracted_text :=
    match (if endswith_any (lower filename) [u ".csv"; u ".tsv"]
           then match decode raw Ignore with
                | Ok text => Ok (Some text)
                | Err e => Err e
                end
           else Ok extracted_text) with
    | Ok t => t
    | Err _ => extracted_text
    end in
  let extracted_text :=
    if is_None extracted_text && endswith_any (lower filename) [u ".xlsx"; u ".xls"]
    then Some (u "Excel file uploaded (preview disabled).")
    else extracted_text in
  let extracted_text :=
    if is_None extracted_text && endswith (lower filename) (u ".pdf")
    then Some (u "PDF uploaded (text extraction not available in lightweight mode).")
    else extracted_text in
  extracted_text.

(** [[t.strip() for t in (tags.split(",") if tags else []) if t.strip()]] *)
Definition tags_list (tags : option str) : list str :=
  map strip
      (List.filter (fun t => truthy (Some (strip t)))
                   (match tags with
                    | Some (c :: s) => split (c :: s) 0x2C
                    | _ => []
                    end)).

(** [extracted_text[:1000] if extracted_text else None] *)
Definition preview_of (extracted_text : option str) : option str :=
  if truthy extracted_text then take 1000 <$> extracted_text else None.

(** The [doc] that [upload_document] builds. *)
Definition upload_doc (file : UploadFile) (title tags related_type related_id : option str)
    : Doc :=
  let filename := or_str (filename file) (u "uploaded") in
  let content_type := or_str (content_type file) (u "application/octet-stream") in
  let raw := read file in
  let extracted_text := extract_text filename raw in
  {[ u "title" := VStr (or_str title filename);
     u "filename" := VStr filename;
     u "content_type" := VStr content_type;
     u "tags" := VList (map VStr (tags_list tags));
     u "related_type" := VOpt related_type;
     u "related_id" := VOpt related_id;
     u "extracted_text" := VOpt extracted_text ]}.

Definition upload_document (file : UploadFile)
    (title tags related_type related_id : option str) : Handler Value :=
  if is_None db then
    Raise (HTTPException 500 (u "Database not configured"))
  else
    let filename := or_str (filename file) (u "uploaded") in
    let raw := read file in
    let extracted_text := extract_text filename raw in
    let doc := upload_doc file title tags related_type related_id in
    inserted_id ← call (create_document (u "document") doc);
    mret (VDict {[ u "id" := VStr inserted_id;
                   u "message" := VStr (u "Uploaded");
                   u "preview" := VOpt (preview_of extracted_text) ]}).

End Handlers.

(** ** The document store *)

(** [str(oid)] of an ObjectId: its 24 hexadecimal digits. *)
Definition hex_digit (d : N) : N :=
  if d <? 10 then 0x30 + d else 0x61 + (d - 10).
Definition objectid_str (oid : N) : str :=
  map (fun i => hex_digit (N.land (N.shiftr oid (4 * N.of_nat i)) 0xF)) (rev (seq 0 24)).

(** [str()] on the values a store uses as identifiers: an ObjectId gives its
    hexadecimal digits, a string itself.  The examples instantiate the builtin
    with it; no property depends on what it gives elsewhere. *)
Definition str_of_id (v : Value) : str :=
  match v with
  | VObjectId oid => objectid_str oid
  | VStr s => s
  | _ => []
  end.

(** Modelled from the spec: the Document Store Adapter, the module [database]
    with [create_document] and [get_documents], which is not among the sources.
    It is a thin facade over a document database exposing "insert one" and "find
    many with limit" per named collection; every stored record receives an
    opaque unique identifier assigned by the store at creation time, and a
    stored record is the key-value document plus that identifier field. *)
Record Store : Type := mkStore {
  store_collections : gmap str (list Doc);
  store_next_oid : N
}.

Definition store_find (s : Store) (collection_name : str) : list Doc :=
  match store_collections s !! collection_name with
  | Some docs => docs
  | None => []
  end.

Definition store_insert_one (s : Store) (collection_name : str) (data : Doc) : Store :=
  let oid := store_next_oid s in
  mkStore (<[collection_name :=
              store_find s collection_name ++ [<[u "_id" := VObjectId oid]> data]]>
             (store_collections s))
          (oid + 1).

Definition store_exec : Exec Store :=
  fun X c =>
    match c in StoreCall X return Store -> Result X * Store with
    | get_documents collection_name limit =>
      fun s => (Ok (take (Z.to_nat limit) (store_find s collection_name)), s)
    | create_document collection_name data =>
      fun s => (Ok (objectid_str (store_next_oid s)), store_insert_one s collection_name data)
    | list_collection_names =>
      fun s => (Ok (elements (dom (store_collections s))), s)
    end.

Definition empty_store : Store := mkStore ∅ 0.

(** A store whose every call fails. *)
Definition failing_exec (msg : str) : Exec unit :=
  fun X _ s => (Err (Exception msg), s).

(** [str(e)] of an [Exception(msg)]: its message. *)
Definition message_of (e : exn) : str :=
  match e with
  | Exception msg => msg
  | _ => []
  end.

(** ** Notions of the specification and sample data *)

(** [filename] ends in [ext], whatever the case of its letters. *)
Definition ends_in (filename ext : str) : Prop :=
  ∃ stem suffix, filename = stem ++ suffix ∧ lower suffix = lower ext.

Definition non_empty (s : str) : bool := negb (str_eqb s []).

(** [bs] is one character in UTF-8: decoded strictly, it gives the single
    code point [cp]. *)
Definition utf8_char (bs : bytes) (cp : N) : Prop := decode bs Strict = Ok [cp].

(** No character begins the input [s]: no prefix of it is one. *)
Definition undecodable_at (s : bytes) : Prop := ∀ n cp, ¬ utf8_char (take n s) cp.

(** The text of [raw] when each character is kept and each byte at which no
    character begins is dropped, nothing being put in its place. *)
Inductive drops_undecodable : bytes → str → Prop :=
| drops_nil : drops_undecodable [] []
| drops_keep (c : bytes) (cp : N) (rest : bytes) (text : str) :
    utf8_char c cp → drops_undecodable rest text →
    drops_undecodable (c ++ rest) (cp :: text)
| drops_skip (b : byte) (rest : bytes) (text : str) :
    undecodable_at (b :: rest) → drops_undecodable rest text →
    drops_undecodable (b :: rest) text.

(** The fields of a model that have no default. *)
Definition required_fields (c : ClassDef) : list string :=
  map field_name
      (List.filter (fun f => match default f with
                             | Required => true
                             | DefaultTo _ => false
                             end)
                   (fields c)).

(** Pydantic's schema of a model, as far as the examples need it: the title and
    the names of the fields. *)
Definition schema_outline (model : PyObject) : Value :=
  match model with
  | PyClass c =>
    VDict {[ u "title" := VStr (u (class_name c));
             u "type" := VStr (u "object");
             u "properties" :=
               VDict (list_to_map (map (fun f => (u (field_name f), VDict ∅)) (fields c))) ]}
  | PyValue _ => VNone
  end.

(** A payload that the [Lease] model rejects: required fields are missing, the
    rent is negative, the status is none of the three, one field is unknown. *)
Definition odd_lease : Doc :=
  {[ u "monthly_rent" := VInt (-5);
     u "status" := VStr (u "bogus");
     u "colour" := VStr (u "red") ]}.

Definition ada : Doc :=
  {[ u "_id" := VObjectId 10; u "first_name" := VStr (u "Ada") ]}.

Definition report_csv_bytes : bytes := list_byte_of_string ("a,b" ++ LF ++ "c,d").
Definition report_csv : UploadFile :=
  mkUploadFile (Some (u "report.csv")) (Some (u "text/csv")) report_csv_bytes.
Definition empty_csv : UploadFile := mkUploadFile (Some (u "empty.csv")) None [].
Definition e_acute : bytes := ["195"%byte; "169"%byte].
Definition accents_csv : UploadFile :=
  mkUploadFile (Some (u "accents.csv")) None (concat (replicate 1001 e_acute)).
Definition nameless : UploadFile := mkUploadFile None None [].

(** ** The routes of main.py *)

Inductive Method : Type := GET | HEAD | POST | PUT | PATCH | DELETE | OPTIONS.

#[export] Instance Method_eq_dec : EqDecision Method.
Proof. solve_decision. Defined.

(** What a route points to: a handler of [main.py], or something that the
    framework serves itself (its documentation pages). *)
Inductive Endpoint : Type :=
| to_read_root | to_test_database | to_get_schema
| to_list_items | to_create_item | to_upload_document
| to_framework (name : string).

Record Route : Type := mkRoute {
  route_method : Method;
  route_path : string;
  endpoint : Endpoint
}.

(** The decorators of [main.py], in the order in which they register their
    routes. *)
Definition routes : list Route :=
  [ mkRoute GET "/" to_read_root;
    mkRoute GET "/test" to_test_database;
    mkRoute GET "/schema" to_get_schema;
    mkRoute GET "/api/{collection}" to_list_items;
    mkRoute POST "/api/{collection}" to_create_item;
    mkRoute POST "/api/upload" to_upload_document ].

(** A segment of a route's path: a literal, or a [{parameter}], which matches
    any non-empty segment. *)
Inductive Segment : Type :=
| Literal (s : str)
| Param (name : str).

Definition compile_segment (segment : str) : Segment :=
  match segment with
  | 0x7B :: rest =>
    match last rest with
    | Some 0x7D => Param (removelast rest)
    | _ => Literal segment
    end
  | _ => Literal segment
  end.

Definition compile_path (path : string) : list Segment :=
  map compile_segment (split (u path) 0x2F).

Fixpoint match_segments (pattern : list Segment) (segments : list str)
    : option (list (str * str)) :=
  match pattern, segments with
  | [], [] => Some []
  | Literal l :: pattern', s :: segments' =>
    if bool_decide (l = s) then match_segments pattern' segments' else None
  | Param name :: pattern', s :: segments' =>
    if bool_decide (s = []) then None
    else match match_segments pattern' segments' with
         | Some params => Some ((name, s) :: params)
         | None => None
         end
  | _, _ => None
  end.

(** The path parameters when the path of a request matches the path of a
    route. *)
Definition match_path (route_path : string) (path : str) : option (list (str * str)) :=
  match_segments (compile_path route_path) (split path 0x2F).

(** What the router does with a request. *)
Inductive Dispatch : Type :=
| Handled (endpoint : Endpoint) (path_params : list (str * str))
| MethodNotAllowed
| Redirect (path : str)
| NotFound.

(** The router takes the first route whose path and method match; a route
    whose path alone matches makes the failure a 405. *)
Fixpoint dispatch_in (rs : list Route) (partial : bool) (method : Method) (path : str)
    : option Dispatch :=
  match rs with
  | [] => if partial then Some MethodNotAllowed else None
  | r :: rs' =>
    match match_path (route_path r) path with
    | Some path_params =>
      if bool_decide (method = route_method r) then Some (Handled (endpoint r) path_params)
      else dispatch_in rs' true method path
    | None => dispatch_in rs' partial method path
    end
  end.

Fixpoint lstrip_slashes (path : str) : str :=
  match path with
  | [] => []
  | c :: path' => if c =? 0x2F then lstrip_slashes path' else path
  end.
(** [path.rstrip("/")] *)
Definition rstrip_slashes (path : str) : str := rev (lstrip_slashes (rev path)).

(** When no route matches, a path other than [/] is tried again without its
    trailing slashes, or with one added, and the request is redirected when
    some route has that path. *)
Definition dispatch_among (rs : list Route) (method : Method) (path : str) : Dispatch :=
  match dispatch_in rs false method path with
  | Some outcome => outcome
  | None =>
    let other :=
      if endswith path (u "/") then rstrip_slashes path else path ++ u "/" in
    if negb (str_eqb path (u "/")) &&
       existsb (fun r => bool_decide (is_Some (match_path (route_path r) other))) rs
    then Redirect other
    else NotFound
  end.

Definition dispatch (method : Method) (path : str) : Dispatch :=
  dispatch_among routes method path.

(** The pages that the framework serves, registered before the routes of
    [main.py]. *)
Definition framework_routes : list Route :=
  [ mkRoute GET "/openapi.json" (to_framework "openapi");
    mkRoute GET "/docs" (to_framework "swagger_ui_html");
    mkRoute GET "/docs/oauth2-redirect" (to_framework "swagger_ui_redirect");
    mkRoute GET "/redoc" (to_framework "redoc_html") ].

(** ** More notions and sample data *)

(** A handler that, when it calls the store at all, calls it once. *)
Definition calls_at_most_once {A} (p : Handler A) : Prop :=
  match p with
  | Call _ k h => (∀ x, touches_store (k x) = false) ∧ (∀ e, touches_store (h e) = false)
  | _ => True
  end.

(** The module with [Owner] bound to a number. *)
Definition schemas_with_a_number : gmap str PyObject :=
  <[u "Owner" := PyValue (VInt 5)]> schemas.

(** * Properties *)

(** Decides a closed proposition by evaluation. *)
Ltac by_evaluation := refine (bool_decide_unpack _ _); vm_compute; exact I.

(** ** The generic gateway *)

Section Gateway.
Context {Database : Type}.
Variable str_of : Value -> str.

Lemma normalize_lookup (doc : Doc) (k : str) :
  normalize str_of doc !! k =
  (fun v => if bool_decide (k = u "_id") then VStr (str_of v) else v) <$> doc !! k.
Proof.
  unfold normalize.
  apply (map_fold_weak_ind (fun (d m : Doc) => d !! k =
    (fun v => if bool_decide (k = u "_id") then VStr (str_of v) else v) <$> m !! k)).
  - by rewrite !lookup_empty.
  - intros i x m r Hi IH.
    destruct (decide (i = k)) as [->|Hne].
    + destruct (bool_decide (k = u "_id")); by rewrite !lookup_insert_eq.
    + rewrite (lookup_insert_ne m) by done. rewrite <- IH.
      destruct (bool_decide (i = u "_id")); by rewrite lookup_insert_ne.
Qed.

(** C1, as the handlers have it: for a collection name outside the allow-list,
    List and Create raise the 404 "Collection not found" when the store is
    configured and the 500 "Database not configured" when it is not (that test
    comes first); either way they make no call to the store and leave it
    as it is. *)
Theorem unknown_collection_rejected_at_the_boundary
    (db : option Database) (collection : str) (limit : Z) (payload : Doc) :
  collection ∉ VALID_COLLECTIONS →
  let failure :=
    if is_None db then HTTPException 500 (u "Database not configured")
    else HTTPException 404 (u "Collection not found") in
  list_items db str_of collection limit = Raise failure ∧
  create_item db collection payload = Raise failure ∧
  touches_store (list_items db str_of collection limit) = false ∧
  touches_store (create_item db collection payload) = false ∧
  ∀ S (exec : Exec S) (s : S),
    run exec (list_items db str_of collection limit) s = (Err failure, s) ∧
    run exec (create_item db collection payload) s = (Err failure, s).
Proof.
  intros Hc failure.
  assert (list_items db str_of collection limit = Raise failure) as Hl.
  { unfold list_items, failure. destruct db; simpl; [|done].
    by rewrite bool_decide_eq_true_2. }
  assert (create_item db collection payload = Raise failure) as Hcr.
  { unfold create_item, failure. destruct db; simpl; [|done].
    by rewrite bool_decide_eq_true_2. }
  rewrite Hl, Hcr. repeat split; reflexivity.
Qed.

(** C2: for an allow-listed collection and any payload at all, Create hands
    the payload unchanged to the store under the collection's name and
    answers with the identifier the store returned and "Created"; no test of
    the payload stands in between.  On the store of the specification the
    collection gains one record, the payload plus its identifier field, and
    no other collection changes. *)
Theorem create_item_stores_payload_verbatim
    (d : Database) (collection : str) (payload : Doc) :
  collection ∈ VALID_COLLECTIONS →
  create_item (Some d) collection payload =
    Call (create_document collection payload)
         (fun inserted_id =>
            Return (VDict {[ u "id" := VStr inserted_id;
                             u "message" := VStr (u "Created") ]}))
         Raise ∧
  ∀ s : Store,
    let inserted_id := objectid_str (store_next_oid s) in
    let stored := <[u "_id" := VObjectId (store_next_oid s)]> payload in
    let s' := (run store_exec (create_item (Some d) collection payload) s).2 in
    (run store_exec (create_item (Some d) collection payload) s).1 =
      Ok (VDict {[ u "id" := VStr inserted_id; u "message" := VStr (u "Created") ]}) ∧
    store_find s' collection = store_find s collection ++ [stored] ∧
    (∀ k, k ≠ u "_id" → stored !! k = payload !! k) ∧
    (∀ other, other ≠ collection → store_find s' other = store_find s other).
Proof.
  intros Hc.
  assert (create_item (Some d) collection payload =
    Call (create_document collection payload)
         (fun inserted_id =>
            Return (VDict {[ u "id" := VStr inserted_id;
                             u "message" := VStr (u "Created") ]}))
         Raise) as Heq.
  { unfold create_item. simpl. by rewrite bool_decide_eq_false_2 by (by intros []). }
  split; [exact Heq|]. intros s. rewrite Heq. simpl.
  split; [reflexivity|]. unfold store_find at 1 3. simpl.
  split; [by rewrite lookup_insert_eq|].
  split.
  - intros k Hk. by rewrite lookup_insert_ne.
  - intros other Ho. by rewrite lookup_insert_ne.
Qed.

(** C3: List answers with the documents of the store, each one normalized;
    a normalized document has the keys of the stored one, its [_id] is the
    string [str()] gives for the stored identifier, and every other key
    keeps its value. *)
Theorem list_items_normalizes_only_the_id
    (d : Database) (collection : str) (limit : Z) :
  collection ∈ VALID_COLLECTIONS →
  list_items (Some d) str_of collection limit =
    Call (get_documents collection limit)
         (fun items =>
            Return (VDict {[ u "items" :=
                               VList (map (fun i => VDict (normalize str_of i)) items) ]}))
         Raise ∧
  ∀ doc : Doc,
    dom (normalize str_of doc) = dom doc ∧
    normalize str_of doc !! u "_id" = (fun v => VStr (str_of v)) <$> doc !! u "_id" ∧
    ∀ k, k ≠ u "_id" → normalize str_of doc !! k = doc !! k.
Proof.
  intros Hc. split.
  - unfold list_items. simpl. by rewrite bool_decide_eq_false_2 by (by intros []).
  - intros doc. split; [|split].
    + apply set_eq. intros k. rewrite !elem_of_dom, normalize_lookup.
      by rewrite fmap_is_Some.
    + rewrite normalize_lookup. by rewrite bool_decide_eq_true_2.
    + intros k Hk. rewrite normalize_lookup. rewrite bool_decide_eq_false_2 by done.
      by destruct (doc !! k).
Qed.

End Gateway.

Lemma unknown_collection_rejected_witness :
  list_items (Some tt) str_of_id (u "invoice") 25 =
    Raise (HTTPException 404 (u "Collection not found")) ∧
  create_item (@None unit) (u "invoice") ∅ =
    Raise (HTTPException 500 (u "Database not configured")).
Proof.
  split.
  - apply (unknown_collection_rejected_at_the_boundary str_of_id (Some tt) (u "invoice") 25 ∅).
    by_evaluation.
  - apply (unknown_collection_rejected_at_the_boundary str_of_id None (u "invoice") 25 ∅).
    by_evaluation.
Defined.

(** Against C1 as stated: with no store configured, List and Create of a name
    outside the allow-list answer 500, not 404. *)
Lemma unknown_collection_without_store_is_500 :
  (u "invoice" ∉ VALID_COLLECTIONS) ∧
  status_code_of (run store_exec (list_items (@None unit) str_of_id (u "invoice") 25)
                      empty_store).1 = 500%Z ∧
  status_code_of (run store_exec (create_item (@None unit) (u "invoice") ∅)
                      empty_store).1 = 500%Z ∧
  500%Z ≠ 404%Z.
Proof. split; [by_evaluation|]. repeat split; try reflexivity. discriminate. Qed.

Lemma create_item_witness :
  create_item (Some tt) (u "lease") odd_lease =
    Call (create_document (u "lease") odd_lease)
         (fun inserted_id =>
            Return (VDict {[ u "id" := VStr inserted_id;
                             u "message" := VStr (u "Created") ]}))
         Raise ∧
  store_find (run store_exec (create_item (Some tt) (u "lease") odd_lease) empty_store).2
             (u "lease") =
    [<[u "_id" := VObjectId 0]> odd_lease].
Proof.
  destruct (create_item_stores_payload_verbatim tt (u "lease") odd_lease) as [Hcall Hstore].
  { by_evaluation. }
  split; [exact Hcall|].
  destruct (Hstore empty_store) as (_ & -> & _). reflexivity.
Defined.

(** The payload of the example does break the schema of its collection. *)
Example odd_lease_breaks_the_schema :
  required_fields Lease = ["tenant_id"; "property_id"; "start_date"; "monthly_rent"] ∧
  odd_lease !! u "tenant_id" = None ∧
  odd_lease !! u "monthly_rent" = Some (VInt (-5)) ∧
  "colour" ∉ map field_name (fields Lease).
Proof. split; [reflexivity|]. split; [reflexivity|]. split; [reflexivity|]. by_evaluation. Qed.

Lemma list_items_witness :
  normalize str_of_id ada !! u "_id" = Some (VStr (u "00000000000000000000000a")) ∧
  normalize str_of_id ada !! u "first_name" = Some (VStr (u "Ada")).
Proof.
  destruct (list_items_normalizes_only_the_id str_of_id tt (u "tenant") 25) as [_ H].
  { by_evaluation. }
  destruct (H ada) as (_ & Hid & Hother). split.
  - rewrite Hid. reflexivity.
  - rewrite Hother; [reflexivity|]. by_evaluation.
Defined.

(** ** UTF-8 decoding *)

Lemma bytes_length_ind (P : bytes → Prop) :
  (∀ s, (∀ t, (length t < length s)%nat → P t) → P s) → ∀ s, P s.
Proof.
  intros step s. remember (length s) as n eqn:Hn.
  revert s Hn. induction n as [n IH] using lt_wf_ind.
  intros s ->. apply step. intros t Ht. by apply (IH (length t)).
Qed.

(** Takes the decoder one step on a non-empty input and splits on each test
    it makes. *)
Ltac decoder_step :=
  repeat match goal with
         | |- context [if ?c then _ else _] => destruct c eqn:?
         | |- context [match ?l with [] => _ | _ :: _ => _ end] =>
           is_var l; destruct l
         end.

Lemma decode_ignore_total (raw : bytes) : ∃ text, decode raw Ignore = Ok text.
Proof.
  unfold decode. induction raw as [s IH] using bytes_length_ind.
  destruct s as [|x0 s1]; [by eexists|].
  simpl. decoder_step; cbn [on_error emit];
    try (by eexists);
    match goal with
    | |- context [decode_utf8 Ignore ?t] =>
      destruct (IH t) as [text ->]; [simpl; lia|]; cbn [emit]; by eexists
    end.
Qed.

(** Under [errors="ignore"] the decoder gives the text of some of the bytes,
    in their order: the bytes it drops are the ill-formed ones. *)
Lemma decode_ignore_drops (raw : bytes) :
  ∃ kept text,
    decode raw Ignore = Ok text ∧ kept `sublist_of` raw ∧ decode kept Strict = Ok text.
Proof.
  unfold decode. induction raw as [s IH] using bytes_length_ind.
  destruct s as [|x0 s1]; [by exists [], []|].
  simpl. decoder_step; cbn [on_error emit];
    try (by exists [], []; split; [|split; [apply sublist_nil_l|]]);
    match goal with
    | |- context [decode_utf8 Ignore ?t] =>
      destruct (IH t) as (kept & text & -> & Hsub & Hstrict); [simpl; lia|];
      cbn [emit];
      first
        [ by exists kept; eexists; split; [reflexivity|];
             split; [solve [repeat first [exact Hsub|apply sublist_cons]]|exact Hstrict]
        | match goal with
          | IH' : ∀ _, (_ < length (?a :: t))%nat → _ |- _ => exists (a :: kept)
          | IH' : ∀ _, (_ < length (?a :: ?b :: t))%nat → _ |- _ =>
            exists (a :: b :: kept)
          | IH' : ∀ _, (_ < length (?a :: ?b :: ?c :: t))%nat → _ |- _ =>
            exists (a :: b :: c :: kept)
          | IH' : ∀ _, (_ < length (?a :: ?b :: ?c :: ?d :: t))%nat → _ |- _ =>
            exists (a :: b :: c :: d :: kept)
          end;
          eexists; split; [reflexivity|];
          split; [by repeat apply sublist_skip|];
          simpl; repeat match goal with H : _ = _ |- _ => rewrite H end;
          cbn [emit]; reflexivity ]
    end.
Qed.

(** On well-formed input the handler makes no difference. *)
Lemma decode_strict_ignore (raw : bytes) (text : str) :
  decode raw Strict = Ok text → decode raw Ignore = Ok text.
Proof.
  unfold decode. revert text. induction raw as [s IH] using bytes_length_ind.
  intros text. destruct s as [|x0 s1]; [done|].
  simpl. decoder_step; cbn [on_error]; try done;
    match goal with
    | |- emit ?c (decode_utf8 Strict ?t) = _ → _ =>
      destruct (decode_utf8 Strict t) as [text'|] eqn:Hstrict; [|done];
      rewrite (IH t ltac:(simpl; lia) text' Hstrict); done
    end.
Qed.

Lemma endswith_lower_ends_in (filename ext : str) :
  lower ext = ext →
  endswith (lower filename) ext = true ↔ ends_in filename ext.
Proof.
  intros Hext. unfold endswith, ends_in, str_eqb, lower in *.
  rewrite andb_true_iff, Nat.leb_le, bool_decide_eq_true, length_map. split.
  - intros [Hlen Hdrop].
    exists (take (length filename - length ext)%nat filename),
           (drop (length filename - length ext)%nat filename).
    split; [by rewrite take_drop|].
    by rewrite <- skipn_map, Hext.
  - intros (stem & suffix & -> & Hsuffix). rewrite Hext in Hsuffix.
    assert (length suffix = length ext) as Hlen.
    { by rewrite <- Hsuffix, length_map. }
    rewrite length_app. split; [lia|].
    rewrite map_app, Hsuffix.
    replace (length stem + length suffix - length ext)%nat
      with (length (map lower_char stem)) by (rewrite length_map; lia).
    by rewrite drop_app_length.
Qed.

(** ** The upload handler *)

(** The fields of the document that the upload handler builds. *)
Lemma upload_doc_fields (title filename content_type tags related_type related_id
    extracted_text : Value) :
  let doc : Doc :=
    {[ u "title" := title; u "filename" := filename; u "content_type" := content_type;
       u "tags" := tags; u "related_type" := related_type; u "related_id" := related_id;
       u "extracted_text" := extracted_text ]} in
  doc !! u "title" = Some title ∧ doc !! u "tags" = Some tags ∧
  doc !! u "extracted_text" = Some extracted_text.
Proof. vm_compute. done. Qed.

Section Upload.
Context {Database : Type}.
Variables (d : Database) (file : UploadFile).
Variables (title tags related_type related_id : option str).

Let name : str := or_str (filename file) (u "uploaded").
Let extracted_text : option str := extract_text name (read file).
Let doc : Doc := upload_doc file title tags related_type related_id.

Lemma upload_document_configured :
  upload_document (Some d) file title tags related_type related_id =
    Call (create_document (u "document") doc)
         (fun inserted_id =>
            Return (VDict {[ u "id" := VStr inserted_id;
                             u "message" := VStr (u "Uploaded");
                             u "preview" := VOpt (preview_of extracted_text) ]}))
         Raise.
Proof. reflexivity. Qed.

Lemma extract_text_csv (filename : str) (raw : bytes) :
  endswith_any (lower filename) [u ".csv"; u ".tsv"] = true →
  ∃ text, decode raw Ignore = Ok text ∧ extract_text filename raw = Some text.
Proof.
  intros Hcsv. destruct (decode_ignore_total raw) as [text Htext].
  exists text. split; [done|]. unfold extract_text. by rewrite Hcsv, Htext.
Qed.

Lemma endswith_any_ends_in (filename a b : str) :
  lower a = a → lower b = b →
  endswith_any (lower filename) [a; b] = true ↔ ends_in filename a ∨ ends_in filename b.
Proof.
  intros Ha Hb. unfold endswith_any. simpl.
  rewrite orb_false_r, orb_true_iff.
  by rewrite !endswith_lower_ends_in.
Qed.

(** C4: the extracted text follows the first rule that the file name
    matches, whatever the case of its letters: the decoded bytes for [.csv]
    and [.tsv], one fixed note for [.xlsx] and [.xls], another for [.pdf],
    and nothing otherwise; it is the [extracted_text] of the stored
    document, the name being ["uploaded"] when the client gave none. *)
Theorem extracted_text_by_extension (filename : str) (raw : bytes) :
  let csv := ends_in filename (u ".csv") ∨ ends_in filename (u ".tsv") in
  let excel := ends_in filename (u ".xlsx") ∨ ends_in filename (u ".xls") in
  let pdf := ends_in filename (u ".pdf") in
  (csv → ∃ text, decode raw Ignore = Ok text ∧ extract_text filename raw = Some text) ∧
  (¬ csv → excel →
   extract_text filename raw = Some (u "Excel file uploaded (preview disabled).")) ∧
  (¬ csv → ¬ excel → pdf →
   extract_text filename raw =
     Some (u "PDF uploaded (text extraction not available in lightweight mode).")) ∧
  (¬ csv → ¬ excel → ¬ pdf → extract_text filename raw = None) ∧
  doc !! u "extracted_text" = Some (VOpt (extract_text name (read file))).
Proof.
  intros csv excel pdf.
  assert (endswith_any (lower filename) [u ".csv"; u ".tsv"] = true ↔ csv) as Hcsv
    by (by apply endswith_any_ends_in).
  assert (endswith_any (lower filename) [u ".xlsx"; u ".xls"] = true ↔ excel) as Hexcel
    by (by apply endswith_any_ends_in).
  assert (endswith (lower filename) (u ".pdf") = true ↔ pdf) as Hpdf
    by (by apply endswith_lower_ends_in).
  assert (¬ csv → ∀ t : option str,
    match (if endswith_any (lower filename) [u ".csv"; u ".tsv"]
           then match decode raw Ignore with
                | Ok text => Ok (Some text)
                | Err e => Err e
                end
           else Ok t) with
    | Ok t' => t'
    | Err _ => t
    end = t) as Hskip.
  { intros Hn t. destruct (endswith_any _ _) eqn:E; [|done]. by destruct Hn; apply Hcsv. }
  split; [|split; [|split; [|split]]].
  - intros Hc. apply extract_text_csv. by apply Hcsv.
  - intros Hn He. unfold extract_text. rewrite Hskip by done.
    apply Hexcel in He. by rewrite He.
  - intros Hn Hne Hp. unfold extract_text. rewrite Hskip by done.
    destruct (endswith_any _ [u ".xlsx"; _]) eqn:E; [by destruct Hne; apply Hexcel|].
    apply Hpdf in Hp. by rewrite Hp.
  - intros Hn Hne Hnp. unfold extract_text. rewrite Hskip by done.
    destruct (endswith_any _ [u ".xlsx"; _]) eqn:E; [by destruct Hne; apply Hexcel|].
    destruct (endswith _ (u ".pdf")) eqn:E'; [by destruct Hnp; apply Hpdf|].
    done.
  - apply upload_doc_fields.
Qed.
End Upload.

Lemma not_ends_in (filename ext : str) :
  lower ext = ext → endswith (lower filename) ext = false → ¬ ends_in filename ext.
Proof. intros Hext H He. apply endswith_lower_ends_in in He; [congruence|done]. Qed.

Lemma extracted_text_witness :
  extract_text (u "sheet.xlsx") [] = Some (u "Excel file uploaded (preview disabled).") ∧
  extract_text (u "notes.pdf") [] =
    Some (u "PDF uploaded (text extraction not available in lightweight mode).") ∧
  extract_text (u "photo.png") [] = None ∧
  ∃ text, decode report_csv_bytes Ignore = Ok text ∧
          extract_text (u "REPORT.CSV") report_csv_bytes = Some text.
Proof.
  assert (∀ f, endswith (lower f) (u ".csv") = false → endswith (lower f) (u ".tsv") = false →
               ¬ (ends_in f (u ".csv") ∨ ends_in f (u ".tsv"))) as Hcsv.
  { intros f H1 H2 [H|H]; by apply not_ends_in in H. }
  assert (∀ f, endswith (lower f) (u ".xlsx") = false → endswith (lower f) (u ".xls") = false →
               ¬ (ends_in f (u ".xlsx") ∨ ends_in f (u ".xls"))) as Hxls.
  { intros f H1 H2 [H|H]; by apply not_ends_in in H. }
  split; [|split; [|split]].
  - apply (extracted_text_by_extension nameless None None None None (u "sheet.xlsx") []).
    + by apply Hcsv.
    + left. by apply endswith_lower_ends_in.
  - apply (extracted_text_by_extension nameless None None None None (u "notes.pdf") []).
    + by apply Hcsv.
    + by apply Hxls.
    + by apply endswith_lower_ends_in.
  - apply (extracted_text_by_extension nameless None None None None (u "photo.png") []).
    + by apply Hcsv.
    + by apply Hxls.
    + by apply not_ends_in.
  - apply (extracted_text_by_extension nameless None None None None (u "REPORT.CSV")
             report_csv_bytes).
    left. by apply endswith_lower_ends_in.
Defined.

Lemma continuation_is_no_start (x : byte) :
  is_continuation (Byte.to_N x) = true →
  (Byte.to_N x <? 0x80) = false ∧ (Byte.to_N x <? 0xC2) = true.
Proof. destruct x; vm_compute; (done || (intros; done)). Qed.

Lemma second_ok_continuation (b0 b1 : N) :
  second_ok b0 b1 = true → is_continuation b1 = true.
Proof. unfold second_ok. by intros [? _]%andb_true_iff. Qed.

(** A continuation byte begins no character, and the decoder drops it. *)
Lemma continuation_undecodable (x : byte) (s : bytes) :
  is_continuation (Byte.to_N x) = true → undecodable_at (x :: s).
Proof.
  intros [H1 H2]%continuation_is_no_start n cp. unfold utf8_char, decode.
  destruct n as [|n]; [done|]. simpl. by rewrite H1, H2.
Qed.

Lemma continuation_dropped (x : byte) (s : bytes) :
  is_continuation (Byte.to_N x) = true →
  decode_utf8 Ignore (x :: s) = decode_utf8 Ignore s.
Proof. intros [H1 H2]%continuation_is_no_start. simpl. by rewrite H1, H2. Qed.

(** Rewrites with the tests that [decoder_step] has decided. *)
Ltac use_tests :=
  repeat match goal with
         | H : (_ <? _) = _ |- _ => rewrite H
         | H : is_continuation _ = _ |- _ => rewrite H
         | H : second_ok _ _ = _ |- _ => rewrite H
         end.

(** No prefix of the input is a character, the decoder failing on each. *)
Ltac no_char_begins :=
  let n := fresh "n" in
  let cp := fresh "cp" in
  intros n cp; unfold utf8_char, decode;
  destruct n as [|[|[|[|n]]]]; simpl; use_tests; done.

Ltac is_a_continuation :=
  first [ eassumption | eapply second_ok_continuation; eassumption ].

(** The decoder under [errors="ignore"] keeps each character and drops each
    byte at which no character begins. *)
Lemma decode_ignore_drops_undecodable (raw : bytes) (text : str) :
  decode raw Ignore = Ok text → drops_undecodable raw text.
Proof.
  unfold decode. revert text. induction raw as [s IH] using bytes_length_ind.
  intros text. destruct s as [|x0 s1]; [intros [= <-]; constructor|].
  simpl. decoder_step; cbn [on_error emit];
    try (intros [= <-];
         apply drops_skip; [no_char_begins|];
         repeat first [ apply drops_nil
                      | apply drops_skip; [apply continuation_undecodable; is_a_continuation|] ]);
    match goal with
    | |- context [decode_utf8 Ignore ?t] =>
      destruct (decode_utf8 Ignore t) as [text'|] eqn:Hdec; cbn [emit]; [|done];
      pose proof (IH t ltac:(simpl; lia) text' Hdec) as Hd;
      intros [= <-];
      first
        [ (* the bytes of an ill-formed sequence are dropped *)
          solve [ apply drops_skip; [no_char_begins|];
                  repeat first
                    [ exact Hd
                    | apply drops_skip;
                      [apply continuation_undecodable; is_a_continuation|] ] ]
        | (* a character is kept *)
          solve [ lazymatch goal with
                  | |- drops_undecodable (?a :: t) _ => apply (drops_keep [a] _ t)
                  | |- drops_undecodable (?a :: ?b :: t) _ => apply (drops_keep [a; b] _ t)
                  | |- drops_undecodable (?a :: ?b :: ?c :: t) _ =>
                    apply (drops_keep [a; b; c] _ t)
                  | |- drops_undecodable (?a :: ?b :: ?c :: ?d :: t) _ =>
                    apply (drops_keep [a; b; c; d] _ t)
                  end;
                  [unfold utf8_char, decode; simpl; use_tests; reflexivity|exact Hd] ] ]
    end.
Qed.

(** Strict decoding gives the empty text for the empty input only. *)
Lemma decode_strict_nil (s : bytes) : decode_utf8 Strict s = Ok [] → s = [].
Proof.
  destruct s as [|x0 s1]; [done|].
  simpl. decoder_step; cbn [on_error]; try done;
    match goal with
    | |- emit _ (decode_utf8 Strict ?t) = _ → _ =>
      by destruct (decode_utf8 Strict t)
    end.
Qed.

(** From [emit c r = Ok [cp]]: the rest is empty and [c] is [cp]. *)
Lemma emit_single (c cp : N) (t : bytes) :
  emit c (decode_utf8 Strict t) = Ok [cp] → c = cp ∧ t = [].
Proof.
  destruct (decode_utf8 Strict t) as [text|] eqn:Ht; [|done].
  simpl. intros [= -> ->]. split; [done|]. by apply decode_strict_nil.
Qed.

(** A character is kept, whatever follows it. *)
Lemma decode_ignore_char (c : bytes) (cp : N) (rest : bytes) :
  utf8_char c cp →
  decode_utf8 Ignore (c ++ rest) = emit cp (decode_utf8 Ignore rest).
Proof.
  unfold utf8_char, decode. destruct c as [|x0 c1]; [done|].
  simpl. decoder_step; cbn [on_error]; try done;
    intros [<- ->]%emit_single; simpl; use_tests; reflexivity.
Qed.

(** The bytes at hand are one character, the decoder succeeding on them. *)
Ltac is_one_char := solve [unfold utf8_char, decode; simpl; use_tests; reflexivity].

(** A byte at which no character begins is dropped. *)
Lemma decode_ignore_undecodable (b : byte) (rest : bytes) :
  undecodable_at (b :: rest) →
  decode_utf8 Ignore (b :: rest) = decode_utf8 Ignore rest.
Proof.
  intros Hno. simpl. decoder_step; cbn [on_error];
    repeat match goal with
           | H : is_continuation (Byte.to_N ?x) = true
             |- context [decode_utf8 Ignore (?x :: ?s)] =>
             rewrite (continuation_dropped x s) by is_a_continuation
           | H : second_ok _ (Byte.to_N ?x) = true
             |- context [decode_utf8 Ignore (?x :: ?s)] =>
             rewrite (continuation_dropped x s) by is_a_continuation
           end;
    try reflexivity;
    exfalso;
    first [ eapply (Hno 1%nat); is_one_char | eapply (Hno 2%nat); is_one_char
          | eapply (Hno 3%nat); is_one_char | eapply (Hno 4%nat); is_one_char ].
Qed.

Lemma drops_undecodable_decode (raw : bytes) (text : str) :
  drops_undecodable raw text → decode raw Ignore = Ok text.
Proof.
  unfold decode. induction 1 as [|c cp rest text Hc _ IH|b rest text Hno _ IH].
  - done.
  - by rewrite (decode_ignore_char c cp rest Hc), IH.
  - by rewrite decode_ignore_undecodable.
Qed.

(** C5, as the handler has it: for a [.csv] or [.tsv] name and any bytes the
    extracted text is the decoding under [errors="ignore"], which never
    raises.  It is the one text that keeps every character of the input and
    drops every byte at which no character begins, putting nothing in its
    place; so it is the text of the bytes that are left, and the text of all
    the bytes when they are well-formed UTF-8.  For [report.csv] holding
    [a,b], a line feed and [c,d] it is that very text. *)
Theorem csv_text_drops_undecodable_bytes :
  (∀ (filename : str) (raw : bytes),
     ends_in filename (u ".csv") ∨ ends_in filename (u ".tsv") →
     ∃ kept text,
       extract_text filename raw = Some text ∧
       decode raw Ignore = Ok text ∧
       drops_undecodable raw text ∧
       (∀ text', drops_undecodable raw text' → text' = text) ∧
       kept `sublist_of` raw ∧ decode kept Strict = Ok text ∧
       ∀ t, decode raw Strict = Ok t → text = t) ∧
  extract_text (u "report.csv") report_csv_bytes = Some (u ("a,b" ++ LF ++ "c,d")).
Proof.
  split; [|by vm_compute].
  intros filename raw Hcsv.
  destruct (decode_ignore_drops raw) as (kept & text & Hdec & Hsub & Hstrict).
  exists kept, text.
  split; [|split; [done|split; [|split; [|split; [done|split; [done|]]]]]].
  - apply (endswith_any_ends_in filename (u ".csv") (u ".tsv") eq_refl eq_refl) in Hcsv.
    destruct (extract_text_csv filename raw Hcsv) as (text' & Hdec' & ->). congruence.
  - by apply decode_ignore_drops_undecodable.
  - intros text' Hdrops%drops_undecodable_decode. congruence.
  - intros t Ht. apply decode_strict_ignore in Ht. congruence.
Qed.

Lemma csv_text_witness :
  extract_text (u "Report.CSV") ["a"%byte; "255"%byte; "b"%byte; "c"%byte] =
    Some (u "abc") ∧
  drops_undecodable ["a"%byte; "255"%byte; "b"%byte; "c"%byte] (u "abc") ∧
  ∀ text', drops_undecodable ["a"%byte; "255"%byte; "b"%byte; "c"%byte] text' →
           text' = u "abc".
Proof.
  destruct (proj1 csv_text_drops_undecodable_bytes (u "Report.CSV")
              ["a"%byte; "255"%byte; "b"%byte; "c"%byte])
    as (kept & text & Hextract & Hdec & Hdrops & Hunique & _).
  { left. apply endswith_lower_ends_in; reflexivity. }
  assert (text = u "abc") as -> by (by injection Hdec as <-).
  by repeat split.
Defined.

(** Against C5 as stated: an undecodable byte is dropped, where replacing it
    gives U+FFFD. *)
Lemma undecodable_byte_is_not_replaced :
  extract_text (u "report.csv") ["255"%byte] = Some [] ∧
  decode ["255"%byte] Replace = Ok [0xFFFD] ∧
  extract_text (u "report.csv") ["255"%byte] ≠ Some [0xFFFD].
Proof. repeat split; try reflexivity. discriminate. Qed.

(** ** Tags *)

Lemma truthy_non_empty (s : str) : truthy (Some s) = non_empty s.
Proof. by destruct s. Qed.

Lemma strip_filter (pieces : list str) :
  map strip (List.filter (fun t => truthy (Some (strip t))) pieces) =
  List.filter non_empty (map strip pieces).
Proof.
  induction pieces as [|p pieces IH]; [done|].
  cbn [List.filter map]. rewrite truthy_non_empty.
  destruct (non_empty (strip p)); cbn [map]; by rewrite IH.
Qed.

(** C6: the tags are the pieces between the commas, each one stripped, the
    empty ones left out, in the order of the input and with their repetitions;
    no tags input gives no tag. *)
Theorem tags_are_split_stripped_non_empty (tags : str) :
  tags_list (Some tags) = List.filter non_empty (map strip (split tags 0x2C)) ∧
  tags_list None = [] ∧
  tags_list (Some (u " a, b ,,c ")) = [u "a"; u "b"; u "c"] ∧
  tags_list (Some (u "b,a, b")) = [u "b"; u "a"; u "b"] ∧
  ∀ file title tags related_type related_id,
    upload_doc file title tags related_type related_id !! u "tags" =
      Some (VList (map VStr (tags_list tags))).
Proof.
  split; [|split; [|split; [|split]]];
    [|reflexivity|by vm_compute|by vm_compute|intros; apply upload_doc_fields].
  unfold tags_list. destruct tags as [|c s]; [by vm_compute|]. apply strip_filter.
Qed.

Section UploadAnswer.
Context {Database : Type}.
Variables (d : Database) (file : UploadFile).
Variables (title tags related_type related_id : option str).

(** C7, as the handler has it: the answer to an upload holds the identifier
    that the store returned; its preview is the first 1000 characters of the
    extracted text when that text is present and not empty, and null when
    the text is absent or empty. *)
Theorem upload_answers_id_and_preview :
  let extracted_text :=
    extract_text (or_str (filename file) (u "uploaded")) (read file) in
  upload_document (Some d) file title tags related_type related_id =
    Call (create_document (u "document")
                          (upload_doc file title tags related_type related_id))
         (fun inserted_id =>
            Return (VDict {[ u "id" := VStr inserted_id;
                             u "message" := VStr (u "Uploaded");
                             u "preview" := VOpt (preview_of extracted_text) ]}))
         Raise ∧
  (∀ text, extracted_text = Some text → text ≠ [] →
     preview_of extracted_text = Some (take 1000 text) ∧
     length (take 1000 text) = (1000 `min` length text)%nat) ∧
  (extracted_text = None ∨ extracted_text = Some [] → preview_of extracted_text = None).
Proof.
  intros extracted_text. split; [reflexivity|]. split.
  - intros text -> Htext. split; [by destruct text|]. apply length_take.
  - by intros [-> | ->].
Qed.

(** C10: the stored title is the title of the caller when that is given and
    not empty, else the name of the file when that is given and not empty,
    else ["uploaded"]; it is a string and never empty. *)
Theorem stored_title_falls_back_to_filename :
  ∃ t k,
    upload_document (Some d) file title tags related_type related_id =
      Call (create_document (u "document")
                            (upload_doc file title tags related_type related_id))
           k Raise ∧
    upload_doc file title tags related_type related_id !! u "title" = Some (VStr t) ∧
    t ≠ [] ∧
    (truthy title = true → title = Some t) ∧
    (truthy title = false → truthy (filename file) = true → filename file = Some t) ∧
    (truthy title = false → truthy (filename file) = false → t = u "uploaded").
Proof.
  exists (or_str title (or_str (filename file) (u "uploaded"))). eexists.
  split; [reflexivity|]. split; [apply upload_doc_fields|].
  destruct title as [[|c s]|], (filename file) as [[|c' s']|]; by vm_compute.
Qed.
End UploadAnswer.

Lemma upload_answer_witness :
  preview_of (extract_text (u "report.csv") report_csv_bytes) =
    Some (u ("a,b" ++ LF ++ "c,d")) ∧
  preview_of (extract_text (u "uploaded") []) = None.
Proof.
  split.
  - destruct (upload_answers_id_and_preview tt report_csv None None None None)
      as (_ & Hsome & _).
    apply (Hsome (u ("a,b" ++ LF ++ "c,d"))); [reflexivity|discriminate].
  - destruct (upload_answers_id_and_preview tt nameless None None None None)
      as (_ & _ & Hnone).
    apply Hnone. left. reflexivity.
Defined.

Lemma stored_title_witness :
  upload_doc report_csv (Some []) None None None !! u "title" =
    Some (VStr (u "report.csv")) ∧
  upload_doc nameless None None None None !! u "title" = Some (VStr (u "uploaded")) ∧
  upload_doc report_csv (Some (u "Q3")) None None None !! u "title" = Some (VStr (u "Q3")).
Proof.
  split; [|split].
  - destruct (stored_title_falls_back_to_filename tt report_csv (Some []) None None None)
      as (t & k & _ & -> & _ & _ & Hfile & _).
    specialize (Hfile eq_refl eq_refl). by injection Hfile as <-.
  - destruct (stored_title_falls_back_to_filename tt nameless None None None None)
      as (t & k & _ & -> & _ & _ & _ & Hnone).
    by rewrite (Hnone eq_refl eq_refl).
  - destruct (stored_title_falls_back_to_filename tt report_csv (Some (u "Q3")) None None None)
      as (t & k & _ & -> & _ & Htitle & _).
    specialize (Htitle eq_refl). by injection Htitle as <-.
Defined.

(** Against C7 as stated: for an empty [.csv] file the document holds the
    empty text, which is present, and the preview is null, not that text. *)
Lemma empty_text_has_null_preview :
  upload_doc empty_csv None None (Some (u "general")) None !! u "extracted_text" =
    Some (VStr []) ∧
  upload_document (Some tt) empty_csv None None (Some (u "general")) None =
    Call (create_document (u "document")
                          (upload_doc empty_csv None None (Some (u "general")) None))
         (fun inserted_id =>
            Return (VDict {[ u "id" := VStr inserted_id;
                             u "message" := VStr (u "Uploaded");
                             u "preview" := VNone ]}))
         Raise ∧
  VNone ≠ VStr (take 1000 []).
Proof. split; [reflexivity|]. split; [reflexivity|]. discriminate. Qed.

(** The preview counts characters: of 1001 letters of two bytes each it
    keeps 1000. *)
Example preview_counts_characters :
  preview_of (extract_text (u "accents.csv") (read accents_csv)) =
    Some (replicate 1000 0xE9).
Proof. by vm_compute. Qed.

(** ** Schema introspection *)

Section Schema.
Variable str_exn : exn -> str.
Variable import_module : str -> Result (gmap str PyObject).
Variable model_json_schema : PyObject -> Value.

Lemma get_schema_loop_keys (m : gmap str PyObject) (names : list str) (out out' : Doc) :
  get_schema_loop model_json_schema m names out = Return out' →
  dom out' ⊆ dom out ∪ list_to_set (lower <$> names).
Proof.
  revert out. induction names as [|name names IH]; intros out; simpl.
  - intros [= ->]. apply union_subseteq_l.
  - destruct (is_py_None (getattr m name)); simpl.
    + intros H%IH. set_solver.
    + destruct (issubclass (getattr m name) "BaseModel") as [[|]|e]; simpl; [| |done].
      * intros H%IH. rewrite dom_insert in H. set_solver.
      * intros H%IH. set_solver.
Qed.

Lemma model_names_lowercased :
  list_to_set (lower <$> model_names) = VALID_COLLECTIONS.
Proof. by_evaluation. Qed.

(** C8: with the module of this repository, [/schema] answers a map whose
    keys are exactly the seven model names in lower case, each bound to the
    schema of its model; and whatever the module holds, no key outside these
    seven gets into the answer. *)
Theorem schema_has_exactly_the_seven_models :
  (import_module (u "schemas") = Ok schemas →
   ∃ out : Doc,
     get_schema str_exn import_module model_json_schema = Return (VDict out) ∧
     dom out = VALID_COLLECTIONS ∧
     out = list_to_map
             (map (fun c => (lower (u (class_name c)), model_json_schema (PyClass c)))
                  [Tenant; Owner; Property; Lease; Sale; Expense; Document])) ∧
  (∀ (m : gmap str PyObject) (out : Doc),
     import_module (u "schemas") = Ok m →
     get_schema str_exn import_module model_json_schema = Return (VDict out) →
     dom out ⊆ VALID_COLLECTIONS).
Proof.
  split.
  - intros Himport.
    exists (list_to_map
              (map (fun c => (lower (u (class_name c)), model_json_schema (PyClass c)))
                   [Tenant; Owner; Property; Lease; Sale; Expense; Document])).
    unfold get_schema. rewrite Himport.
    split; [vm_compute; reflexivity|]. split; [|reflexivity].
    rewrite dom_list_to_map_L. by_evaluation.
  - intros m out Himport. unfold get_schema. rewrite Himport.
    destruct (get_schema_loop model_json_schema m model_names ∅) as [out'|e|X c k h] eqn:E;
      simpl; [|done..].
    intros [= <-]. apply get_schema_loop_keys in E.
    rewrite model_names_lowercased in E. set_solver.
Qed.
End Schema.

Lemma schema_witness :
  ∃ out : Doc,
    get_schema (fun _ => []) (fun _ => Ok schemas) schema_outline = Return (VDict out) ∧
    dom out = VALID_COLLECTIONS ∧
    out = list_to_map
            (map (fun c => (lower (u (class_name c)), schema_outline (PyClass c)))
                 [Tenant; Owner; Property; Lease; Sale; Expense; Document]).
Proof.
  apply (proj1 (schema_has_exactly_the_seven_models (fun _ => []) (fun _ => Ok schemas)
                  schema_outline)).
  reflexivity.
Defined.

(** ** Diagnostics *)

Section Diagnostics.
Context {Database : Type}.
Variable db : option Database.
Variable str_exn : exn -> str.
Variable getenv : str -> option str.

(** C9: whatever the store does, [/test] returns its status payload and
    raises nothing, so the response is a 200.  The payload tells of each of
    the two environment variables only whether it is set (to a non-empty
    value), and nothing of them when there is no store handle; it lists the
    first 20 collection names at most; and what the listing raises is
    rendered in the [database] field. *)
Theorem test_database_never_fails {S : Type} (exec : Exec S) (s : S) :
  let flag name :=
    if is_None db then VNone
    else VStr (if truthy (getenv name) then u "✅ Set" else u "❌ Not Set") in
  ∃ (response : Doc) (names : list str),
    (run exec (test_database db str_exn getenv) s).1 = Ok (VDict response) ∧
    status_code_of (run exec (test_database db str_exn getenv) s).1 = 200%Z ∧
    response !! u "database_url" = Some (flag (u "DATABASE_URL")) ∧
    response !! u "database_name" = Some (flag (u "DATABASE_NAME")) ∧
    response !! u "collections" = Some (VList (map VStr names)) ∧
    (length names ≤ 20)%nat ∧
    match db, (exec _ list_collection_names s).1 with
    | None, _ =>
      names = [] ∧
      response !! u "database" = Some (VStr (u "⚠️ Available but not initialized"))
    | Some _, Ok listing =>
      names = take 20 listing ∧
      response !! u "database" = Some (VStr (u "✅ Connected & Working"))
    | Some _, Err e =>
      names = [] ∧
      response !! u "database" =
        Some (VStr (u "⚠️ Connected but Error: " ++ take 80 (str_exn e)))
    end.
Proof.
  intros flag. unfold test_database, flag. destruct db as [d|]; simpl.
  - destruct (exec (list str) list_collection_names s) as [[listing|e] s']; simpl.
    + eexists _, (take 20 listing). split; [reflexivity|].
      split; [reflexivity|]. split; [vm_compute; reflexivity|].
      split; [vm_compute; reflexivity|].
      split; [vm_compute; reflexivity|].
      split; [rewrite length_take; lia|]. split; [reflexivity|].
      vm_compute; reflexivity.
    + eexists _, []. split; [reflexivity|].
      split; [reflexivity|]. split; [vm_compute; reflexivity|].
      split; [vm_compute; reflexivity|].
      split; [vm_compute; reflexivity|].
      split; [simpl; lia|]. split; [reflexivity|].
      vm_compute; reflexivity.
  - eexists _, []. split; [reflexivity|].
    split; [reflexivity|]. split; [vm_compute; reflexivity|].
    split; [vm_compute; reflexivity|].
    split; [vm_compute; reflexivity|].
    split; [simpl; lia|]. split; [reflexivity|].
    vm_compute; reflexivity.
Qed.
End Diagnostics.

(** With a store that is down the listing fails, and the payload says so. *)
Example test_database_with_store_down :
  ∃ response : Doc,
    run (failing_exec (u "connection refused"))
        (test_database (Some tt) message_of (fun _ => None)) tt = (Ok (VDict response), tt) ∧
    response !! u "database" =
      Some (VStr (u "⚠️ Connected but Error: connection refused")) ∧
    response !! u "database_url" = Some (VStr (u "❌ Not Set")) ∧
    response !! u "collections" = Some (VList []).
Proof.
  eexists. split; [reflexivity|]. split; [vm_compute; reflexivity|].
  split; vm_compute; reflexivity.
Qed.

(** * Further properties *)

(** ** The data handlers and the store *)

Section DataHandlers.
Context {Database : Type}.
Variable str_of : Value -> str.

(** X1: with no store configured List, Create and Upload raise the 500
    "Database not configured" for every input, an allow-listed collection
    included, and make no call. *)
Theorem unconfigured_store_is_500
    (collection : str) (limit : Z) (payload : Doc) (file : UploadFile)
    (title tags related_type related_id : option str) :
  let failure := HTTPException 500 (u "Database not configured") in
  list_items (@None Database) str_of collection limit = Raise failure ∧
  create_item (@None Database) collection payload = Raise failure ∧
  upload_document (@None Database) file title tags related_type related_id = Raise failure.
Proof. repeat split. Qed.

Lemma list_items_configured (d : Database) (collection : str) (limit : Z) :
  collection ∈ VALID_COLLECTIONS →
  list_items (Some d) str_of collection limit =
    Call (get_documents collection limit)
         (fun items =>
            Return (VDict {[ u "items" :=
                               VList (map (fun i => VDict (normalize str_of i)) items) ]}))
         Raise.
Proof.
  intros Hc. unfold list_items. simpl. by rewrite bool_decide_eq_false_2 by (by intros []).
Qed.

Lemma create_item_configured (d : Database) (collection : str) (payload : Doc) :
  collection ∈ VALID_COLLECTIONS →
  create_item (Some d) collection payload =
    Call (create_document collection payload)
         (fun inserted_id =>
            Return (VDict {[ u "id" := VStr inserted_id;
                             u "message" := VStr (u "Created") ]}))
         Raise.
Proof.
  intros Hc. unfold create_item. simpl. by rewrite bool_decide_eq_false_2 by (by intros []).
Qed.

(** X2: the data handlers make one call and do not retry: when that call
    raises, the handler raises the same exception and the store is as the
    call left it. *)
Theorem store_failure_propagates {S : Type} (exec : Exec S) (s s' : S) (e : exn)
    (d : Database) (collection : str) (limit : Z) (payload : Doc) (file : UploadFile)
    (title tags related_type related_id : option str) :
  collection ∈ VALID_COLLECTIONS →
  (exec _ (get_documents collection limit) s = (Err e, s') →
   run exec (list_items (Some d) str_of collection limit) s = (Err e, s')) ∧
  (exec _ (create_document collection payload) s = (Err e, s') →
   run exec (create_item (Some d) collection payload) s = (Err e, s')) ∧
  (exec _ (create_document (u "document")
                           (upload_doc file title tags related_type related_id)) s
     = (Err e, s') →
   run exec (upload_document (Some d) file title tags related_type related_id) s
     = (Err e, s')).
Proof.
  intros Hc. split; [|split].
  - intros He. rewrite list_items_configured by done. simpl. by rewrite He.
  - intros He. rewrite create_item_configured by done. simpl. by rewrite He.
  - intros He. unfold upload_document. simpl. by rewrite He.
Qed.

(** X3: a document that has no [_id] comes out of the normalization as it
    went in. *)
Theorem normalize_without_id (doc : Doc) :
  doc !! u "_id" = None → normalize str_of doc = doc.
Proof.
  intros Hid. apply map_eq. intros k. rewrite normalize_lookup.
  case_bool_decide as Hk; [subst k; by rewrite Hid|]. by destruct (doc !! k).
Qed.

(** X4: normalizing twice is normalizing once, [str()] of a string being
    that string. *)
Theorem normalize_idempotent (doc : Doc) :
  (∀ s, str_of (VStr s) = s) →
  normalize str_of (normalize str_of doc) = normalize str_of doc.
Proof.
  intros Hstr. apply map_eq. intros k. rewrite !normalize_lookup.
  destruct (doc !! k) as [v|]; [|done]. simpl.
  case_bool_decide; [by rewrite Hstr|done].
Qed.

End DataHandlers.

Lemma store_failure_witness :
  run (failing_exec (u "down")) (list_items (Some tt) str_of_id (u "tenant") 25) tt =
    (Err (Exception (u "down")), tt) ∧
  run (failing_exec (u "down")) (create_item (Some tt) (u "tenant") ∅) tt =
    (Err (Exception (u "down")), tt).
Proof.
  destruct (store_failure_propagates str_of_id (failing_exec (u "down")) tt tt
              (Exception (u "down")) tt (u "tenant") 25 ∅ nameless None None None None)
    as (Hl & Hc & _).
  { by_evaluation. }
  split; [by apply Hl|by apply Hc].
Defined.

Lemma normalize_without_id_witness :
  normalize str_of_id odd_lease = odd_lease.
Proof. apply normalize_without_id. reflexivity. Defined.

Lemma normalize_idempotent_witness :
  normalize str_of_id (normalize str_of_id ada) = normalize str_of_id ada.
Proof. apply normalize_idempotent. reflexivity. Defined.

(** ** More on the schema introspection *)

Section SchemaEdges.
Variable str_exn : exn -> str.
Variable import_module : str -> Result (gmap str PyObject).
Variable model_json_schema : PyObject -> Value.


Lemma get_schema_loop_makes_no_call (m : gmap str PyObject) (names : list str) (out : Doc) :
  touches_store (get_schema_loop model_json_schema m names out) = false.
Proof.
  revert out. induction names as [|name names IH]; intros out; [done|].
  simpl. destruct (is_py_None (getattr m name)); simpl; [apply IH|].
  destruct (issubclass (getattr m name) "BaseModel") as [[|]|e]; simpl; [apply IH..|done].
Qed.

(** X5: [/schema] makes no call to the store, whatever the module holds and
    whether or not it can be imported; when the import raises, the failure
    is the 500 whose detail is "Unable to import schemas: " and [str()] of
    what was raised. *)
Theorem get_schema_needs_no_store :
  touches_store (get_schema str_exn import_module model_json_schema) = false ∧
  (∀ (S : Type) (exec : Exec S) (s : S),
     (run exec (get_schema str_exn import_module model_json_schema) s).2 = s) ∧
  (∀ e, import_module (u "schemas") = Err e →
        get_schema str_exn import_module model_json_schema =
          Raise (HTTPException 500 (u "Unable to import schemas: " ++ str_exn e))).
Proof.
  assert (touches_store (get_schema str_exn import_module model_json_schema) = false) as H.
  { unfold get_schema. destruct (import_module (u "schemas")) as [m|e]; [|done].
    pose proof (get_schema_loop_makes_no_call m model_names ∅) as Hloop.
    by destruct (get_schema_loop model_json_schema m model_names ∅). }
  split; [done|]. split.
  - intros S exec s.
    by destruct (get_schema str_exn import_module model_json_schema).
  - intros e He. unfold get_schema. by rewrite He.
Qed.




Lemma get_schema_loop_not_a_class (m : gmap str PyObject) (names : list str) (out : Doc) :
  (∃ name v, name ∈ names ∧ getattr m name = PyValue v ∧ v ≠ VNone) →
  get_schema_loop model_json_schema m names out =
    Raise (Exception (u "issubclass() arg 1 must be a class")).
Proof.
  revert out. induction names as [|name names IH]; intros out (bad & v & Hin & Hbad & Hv).
  { by apply elem_of_nil in Hin. }
  simpl. destruct (getattr m name) as [c|v'] eqn:Hname.
  - apply elem_of_cons in Hin as [->|Hin]; [congruence|].
    simpl. destruct (bool_decide _); simpl; apply IH; eauto.
  - destruct (is_py_None (PyValue v')) eqn:Hnone; simpl; [|done].
    apply elem_of_cons in Hin as [->|Hin]; [|apply IH; eauto].
    rewrite Hname in Hbad. injection Hbad as ->. by destruct v.
Qed.

(** X7: when the module binds a model name to a value that is neither a class
    nor [None], [/schema] fails: what [issubclass] raises is not caught, and
    the response is a 500. *)
Theorem get_schema_fails_on_a_non_class (m : gmap str PyObject) (name : str) (v : Value) :
  import_module (u "schemas") = Ok m →
  name ∈ model_names → getattr m name = PyValue v → v ≠ VNone →
  ∃ e, get_schema str_exn import_module model_json_schema = Raise e ∧
       (∀ status detail, e ≠ HTTPException status detail) ∧
       ∀ (S : Type) (exec : Exec S) (s : S),
         status_code_of
           (run exec (get_schema str_exn import_module model_json_schema) s).1 = 500%Z.
Proof.
  intros Himport Hname Hbad Hv.
  assert (get_schema str_exn import_module model_json_schema =
            Raise (Exception (u "issubclass() arg 1 must be a class"))) as Heq.
  { unfold get_schema. rewrite Himport.
    rewrite get_schema_loop_not_a_class; [done|]. eauto. }
  eexists. split; [exact Heq|]. split; [done|]. intros S exec s. by rewrite Heq.
Qed.

End SchemaEdges.


Lemma get_schema_fails_witness :
  ∃ e, get_schema (fun _ => []) (fun _ => Ok schemas_with_a_number) schema_outline = Raise e ∧
       (∀ status detail, e ≠ HTTPException status detail) ∧
       ∀ (S : Type) (exec : Exec S) (s : S),
         status_code_of
           (run exec (get_schema (fun _ => []) (fun _ => Ok schemas_with_a_number)
                                 schema_outline) s).1 = 500%Z.
Proof.
  apply (get_schema_fails_on_a_non_class (fun _ => []) (fun _ => Ok schemas_with_a_number)
           schema_outline schemas_with_a_number (u "Owner") (VInt 5)).
  - reflexivity.
  - by_evaluation.
  - reflexivity.
  - discriminate.
Defined.

Lemma get_schema_import_witness :
  get_schema message_of (fun _ => Err (Exception (u "No module named 'schemas'")))
             schema_outline =
    Raise (HTTPException 500 (u "Unable to import schemas: No module named 'schemas'")).
Proof.
  destruct (get_schema_needs_no_store message_of
              (fun _ => Err (Exception (u "No module named 'schemas'"))) schema_outline)
    as (_ & _ & Himport).
  exact (Himport _ eq_refl).
Defined.

(** ** More on tags *)

Lemma elem_of_rev (s : str) (c : N) : c ∈ rev s ↔ c ∈ s.
Proof. rewrite !list_elem_of_In. symmetry. apply in_rev. Qed.

Lemma lstrip_elem (s : str) (c : N) : c ∈ lstrip s → c ∈ s.
Proof.
  induction s as [|a s IH]; [done|]. simpl. destruct (is_space a); [|done].
  intros H. right. by apply IH.
Qed.

Lemma strip_elem (s : str) (c : N) : c ∈ strip s → c ∈ s.
Proof.
  unfold strip, rstrip. intros H. apply lstrip_elem, elem_of_rev, lstrip_elem.
  by apply elem_of_rev.
Qed.

Lemma lstrip_snoc (s : str) (c : N) :
  is_space c = false → lstrip (s ++ [c]) = lstrip s ++ [c].
Proof.
  intros Hc. induction s as [|a s IH]; simpl; [by rewrite Hc|].
  by destruct (is_space a).
Qed.

Lemma lstrip_idempotent (s : str) : lstrip (lstrip s) = lstrip s.
Proof.
  induction s as [|a s IH]; [done|]. simpl.
  destruct (is_space a) eqn:Ha; [done|]. simpl. by rewrite Ha.
Qed.

(** Stripping on the right keeps a string free of leading whitespace so. *)
Lemma lstrip_rstrip (s : str) : lstrip s = s → lstrip (rstrip s) = rstrip s.
Proof.
  destruct s as [|c s]; [done|]. simpl.
  destruct (is_space c) eqn:Hc.
  - intros H. assert (length (lstrip s) ≤ length s)%nat as Hlen.
    { clear. induction s as [|a s IH]; simpl; [done|]. destruct (is_space a); simpl; lia. }
    rewrite H in Hlen. simpl in Hlen. lia.
  - intros _. unfold rstrip. simpl. rewrite lstrip_snoc by done.
    rewrite rev_app_distr. simpl. by rewrite Hc.
Qed.

Lemma strip_idempotent (s : str) : strip (strip s) = strip s.
Proof.
  unfold strip. rewrite lstrip_rstrip by apply lstrip_idempotent.
  unfold rstrip. by rewrite rev_involutive, lstrip_idempotent.
Qed.

Lemma split_pieces_without_sep (s : str) (sep : N) :
  Forall (fun piece => sep ∉ piece) (split s sep).
Proof.
  induction s as [|c s IH]; simpl.
  - repeat constructor. by intros ?%elem_of_nil.
  - destruct (c =? sep) eqn:Hc.
    + constructor; [by intros ?%elem_of_nil|done].
    + apply N.eqb_neq in Hc.
      destruct (split s sep) as [|piece pieces]; constructor.
      * by intros [->|?%elem_of_nil]%elem_of_cons.
      * done.
      * apply Forall_cons in IH as [Hp _]. by intros [->|?]%elem_of_cons.
      * by apply Forall_cons in IH as [_ ?].
Qed.

Lemma tags_list_pieces (tags : option str) (t : str) :
  t ∈ tags_list tags →
  ∃ piece, t = strip piece ∧ truthy (Some (strip piece)) = true ∧ 0x2C ∉ piece.
Proof.
  unfold tags_list. intros Ht. apply list_elem_of_In, in_map_iff in Ht as (piece & <- & Hin).
  apply filter_In in Hin as [Hin Hne]. exists piece. split; [done|]. split; [done|].
  destruct tags as [[|c s]|]; try done.
  pose proof (split_pieces_without_sep (c :: s) 0x2C) as Hall.
  rewrite Forall_forall in Hall. apply Hall. by apply list_elem_of_In.
Qed.

(** X8: every stored tag is non-empty, has no whitespace at either end, and
    holds no comma. *)
Theorem tags_are_clean (tags : option str) (t : str) :
  t ∈ tags_list tags → t ≠ [] ∧ strip t = t ∧ 0x2C ∉ t.
Proof.
  intros (piece & -> & Hne & Hcomma)%tags_list_pieces. split; [|split].
  - by destruct (strip piece).
  - apply strip_idempotent.
  - intros H. by apply Hcomma, strip_elem.
Qed.

Lemma lstrip_of_spaces (s : str) : Forall (fun c => is_space c = true) s → lstrip s = [].
Proof. induction 1 as [|c s Hc _ IH]; [done|]. simpl. by rewrite Hc. Qed.

Lemma split_pieces_of_spaces (s : str) (sep : N) :
  Forall (fun c => is_space c = true ∨ c = sep) s →
  Forall (Forall (fun c => is_space c = true)) (split s sep).
Proof.
  induction 1 as [|c s Hc _ IH]; simpl; [by repeat constructor|].
  destruct (c =? sep) eqn:E; [by constructor|].
  apply N.eqb_neq in E. destruct Hc as [Hc|Hc]; [|done].
  destruct (split s sep) as [|piece pieces]; [by repeat constructor|].
  apply Forall_cons in IH as [Hp Hps]. constructor; [by constructor|done].
Qed.

(** X9: a tags input made of whitespace and commas only gives no tag. *)
Theorem blank_tags_give_no_tag (tags : str) :
  Forall (fun c => is_space c = true ∨ c = 0x2C) tags → tags_list (Some tags) = [].
Proof.
  intros Hblank. unfold tags_list. destruct tags as [|c s]; [done|].
  pose proof (split_pieces_of_spaces (c :: s) 0x2C Hblank) as Hall.
  induction Hall as [|piece pieces Hp _ IH]; [done|].
  assert (strip piece = []) as Hstrip by (unfold strip; by rewrite lstrip_of_spaces).
  cbn [List.filter]. rewrite Hstrip. exact IH.
Qed.

Lemma tags_are_clean_witness :
  u "b" ≠ [] ∧ strip (u "b") = u "b" ∧ 0x2C ∉ u "b".
Proof. apply (tags_are_clean (Some (u " a, b ,,c "))). by_evaluation. Defined.

Lemma blank_tags_witness : tags_list (Some (u " , ,, ")) = [].
Proof.
  apply blank_tags_give_no_tag.
  repeat (constructor; [first [by left | by right]|]). constructor.
Defined.

(** ** More on the upload handler *)

Lemma endswith_last (s suffix : str) :
  endswith s suffix = true → suffix ≠ [] → last s = last suffix.
Proof.
  unfold endswith, str_eqb. rewrite andb_true_iff, bool_decide_eq_true.
  intros [_ Hdrop] Hne.
  rewrite <- (take_drop (length s - length suffix)%nat s) at 1. rewrite Hdrop.
  destruct suffix as [|c suffix] using rev_ind; [done|]. by rewrite app_assoc, !last_snoc.
Qed.

Lemma ends_in_last (filename ext : str) :
  lower ext = ext → ext ≠ [] → ends_in filename ext → last (lower filename) = last ext.
Proof.
  intros Hext Hne H. apply endswith_last; [|done]. by apply endswith_lower_ends_in.
Qed.

(** X10: the three rules of the extraction never overlap: no file name ends
    in an extension of two of them, so their order decides nothing. *)
Theorem extension_rules_are_disjoint (filename : str) :
  let csv := ends_in filename (u ".csv") ∨ ends_in filename (u ".tsv") in
  let excel := ends_in filename (u ".xlsx") ∨ ends_in filename (u ".xls") in
  let pdf := ends_in filename (u ".pdf") in
  ¬ (csv ∧ excel) ∧ ¬ (csv ∧ pdf) ∧ ¬ (excel ∧ pdf).
Proof.
  assert (∀ a b, lower a = a → lower b = b → a ≠ [] → b ≠ [] → last a ≠ last b →
                 ends_in filename a → ends_in filename b → False) as Hclash.
  { intros a b Ha Hb Hna Hnb Hlast Hea Heb.
    apply ends_in_last in Hea; [|done..]. apply ends_in_last in Heb; [|done..]. congruence. }
  repeat split; intros [H1 H2]; destruct H1 as [H1|H1]; try destruct H2 as [H2|H2];
    by eapply (Hclash _ _ eq_refl eq_refl _ _ _ H1 H2).
  Unshelve. all: by vm_compute.
Qed.

Lemma extract_text_ignores_other_content (filename : str) (raw raw' : bytes) :
  endswith_any (lower filename) [u ".csv"; u ".tsv"] = false →
  extract_text filename raw = extract_text filename raw'.
Proof. intros H. unfold extract_text. by rewrite H. Qed.

Section UploadContent.
Context {Database : Type}.
Variables (d : Database).
Variables (title tags related_type related_id : option str).

(** X11: the bytes of a file whose name ends in neither [.csv] nor [.tsv] are
    read and then unused: neither the stored document nor the answer
    depends on them. *)
Theorem other_files_are_not_looked_into
    (name content_type : option str) (raw raw' : bytes) :
  let filename := or_str name (u "uploaded") in
  ¬ (ends_in filename (u ".csv") ∨ ends_in filename (u ".tsv")) →
  upload_doc (mkUploadFile name content_type raw) title tags related_type related_id =
    upload_doc (mkUploadFile name content_type raw') title tags related_type related_id ∧
  upload_document (Some d) (mkUploadFile name content_type raw)
                  title tags related_type related_id =
    upload_document (Some d) (mkUploadFile name content_type raw')
                    title tags related_type related_id.
Proof.
  intros filename Hcsv.
  assert (extract_text filename raw = extract_text filename raw') as Heq.
  { apply extract_text_ignores_other_content.
    destruct (endswith_any _ _) eqn:E; [|done].
    destruct Hcsv. by apply (endswith_any_ends_in filename (u ".csv") (u ".tsv")). }
  unfold upload_document, upload_doc. simpl. fold filename. by rewrite Heq.
Qed.

End UploadContent.

Lemma other_files_witness :
  upload_doc (mkUploadFile (Some (u "photo.png")) None ["255"%byte]) None None None None =
    upload_doc (mkUploadFile (Some (u "photo.png")) None []) None None None None.
Proof.
  apply (other_files_are_not_looked_into tt None None None None (Some (u "photo.png")) None).
  intros [H|H]; by apply not_ends_in in H.
Defined.

Lemma extension_rules_witness :
  ¬ ((ends_in (u "a.csv") (u ".csv") ∨ ends_in (u "a.csv") (u ".tsv")) ∧
     ends_in (u "a.csv") (u ".pdf")).
Proof. apply (extension_rules_are_disjoint (u "a.csv")). Defined.

Lemma decode_ignore_length (raw : bytes) (text : str) :
  decode raw Ignore = Ok text → (length text ≤ length raw)%nat.
Proof.
  unfold decode. revert text. induction raw as [s IH] using bytes_length_ind.
  intros text. destruct s as [|x0 s1]; [by intros [= <-]|].
  simpl. decoder_step; cbn [on_error emit];
    try (intros [= <-]; simpl; lia);
    match goal with
    | |- context [decode_utf8 Ignore ?t] =>
      destruct (decode_utf8 Ignore t) as [text'|] eqn:Hdec; cbn [emit]; [|done];
      pose proof (IH t ltac:(simpl; lia) text' Hdec) as Hlen;
      intros [= <-]; simpl in *; lia
    end.
Qed.

Lemma decode_ascii (h : errors) (raw : bytes) :
  Forall (fun b => Byte.to_N b < 0x80) raw → decode raw h = Ok (map Byte.to_N raw).
Proof.
  unfold decode. induction 1 as [|b raw Hb _ IH]; [done|].
  simpl. apply N.ltb_lt in Hb. by rewrite Hb, IH.
Qed.

(** X12: the text extracted from a [.csv] or [.tsv] file has at most as many
    characters as the file has bytes. *)
Theorem csv_text_is_no_longer_than_the_file (filename : str) (raw : bytes) (text : str) :
  ends_in filename (u ".csv") ∨ ends_in filename (u ".tsv") →
  extract_text filename raw = Some text → (length text ≤ length raw)%nat.
Proof.
  intros Hcsv Htext.
  apply (endswith_any_ends_in filename (u ".csv") (u ".tsv") eq_refl eq_refl) in Hcsv.
  destruct (extract_text_csv filename raw Hcsv) as (text' & Hdec & Heq).
  rewrite Heq in Htext. injection Htext as <-. by apply decode_ignore_length.
Qed.

(** X13: a [.csv] or [.tsv] file of ASCII bytes is extracted as it is, byte
    for character. *)
Theorem ascii_csv_is_extracted_unchanged (filename : str) (raw : bytes) :
  ends_in filename (u ".csv") ∨ ends_in filename (u ".tsv") →
  Forall (fun b => Byte.to_N b < 0x80) raw →
  extract_text filename raw = Some (map Byte.to_N raw).
Proof.
  intros Hcsv Hascii.
  apply (endswith_any_ends_in filename (u ".csv") (u ".tsv") eq_refl eq_refl) in Hcsv.
  destruct (extract_text_csv filename raw Hcsv) as (text & Hdec & ->).
  rewrite decode_ascii in Hdec by done. by injection Hdec as <-.
Qed.

(** X14: a preview, when there is one, is a non-empty prefix of the
    extracted text, of 1000 characters at most, and the whole text when that
    has no more than 1000 characters. *)
Theorem preview_is_a_short_prefix (extracted_text : option str) (preview : str) :
  preview_of extracted_text = Some preview →
  ∃ text, extracted_text = Some text ∧
          preview ≠ [] ∧ preview `prefix_of` text ∧ (length preview ≤ 1000)%nat ∧
          ((length text ≤ 1000)%nat → preview = text).
Proof.
  destruct extracted_text as [text|]; [|done].
  assert (text ≠ [] → preview_of (Some text) = Some (take 1000 text)) as Hsome
    by (by destruct text).
  destruct (decide (text = [])) as [->|Hne]; [done|].
  rewrite Hsome by done. intros [= <-]. exists text. split; [done|]. split; [|split; [|split]].
  - by destruct text.
  - apply prefix_take.
  - rewrite length_take. lia.
  - intros Hlen. by apply take_ge.
Qed.

(** X15: the document of an upload has the same seven keys whatever is
    uploaded; each is a field of the [Document] model, and the fields the
    model requires are among them. *)
Theorem upload_doc_keys (file : UploadFile) (title tags related_type related_id : option str) :
  let doc := upload_doc file title tags related_type related_id in
  dom doc = {[ u "title"; u "filename"; u "content_type"; u "tags"; u "related_type";
               u "related_id"; u "extracted_text" ]} ∧
  dom doc ⊆ list_to_set (u <$> map field_name (fields Document)) ∧
  list_to_set (u <$> required_fields Document) ⊆ dom doc.
Proof.
  intros doc.
  assert (dom doc = {[ u "title"; u "filename"; u "content_type"; u "tags";
                       u "related_type"; u "related_id"; u "extracted_text" ]}) as ->.
  { unfold doc, upload_doc. rewrite !dom_insert_L, dom_singleton_L. by_evaluation. }
  split; [done|]. split; by_evaluation.
Qed.



Lemma csv_length_witness :
  (length (@nil N) ≤ length ["255"%byte])%nat.
Proof.
  apply (csv_text_is_no_longer_than_the_file (u "report.csv") ["255"%byte] []).
  - left. by apply endswith_lower_ends_in.
  - reflexivity.
Defined.

Lemma ascii_csv_witness :
  extract_text (u "data.TSV") report_csv_bytes = Some (map Byte.to_N report_csv_bytes).
Proof.
  apply ascii_csv_is_extracted_unchanged.
  - right. by apply endswith_lower_ends_in.
  - repeat (constructor; [by vm_compute|]). constructor.
Defined.

Lemma preview_witness :
  ∃ text, extract_text (u "accents.csv") (read accents_csv) = Some text ∧
          replicate 1000 0xE9 ≠ [] ∧ replicate 1000 0xE9 `prefix_of` text ∧
          (length (replicate 1000 0xE9) ≤ 1000)%nat ∧
          ((length text ≤ 1000)%nat → replicate 1000 0xE9 = text).
Proof.
  apply (preview_is_a_short_prefix (extract_text (u "accents.csv") (read accents_csv))).
  vm_compute. reflexivity.
Defined.


(** ** More on the diagnostics *)

Section DiagnosticsPayload.
Context {Database : Type}.
Variable db : option Database.
Variable str_exn : exn -> str.
Variable getenv : str -> option str.

(** X17: the payload of [/test] has the same six keys in every case; its
    [backend] is always ["✅ Running"] and its [connection_status] always
    ["Not Connected"], also when the store answered. *)
Theorem test_database_fixed_fields {S : Type} (exec : Exec S) (s : S) (response : Doc) :
  (run exec (test_database db str_exn getenv) s).1 = Ok (VDict response) →
  dom response = {[ u "backend"; u "database"; u "database_url"; u "database_name";
                    u "connection_status"; u "collections" ]} ∧
  response !! u "backend" = Some (VStr (u "✅ Running")) ∧
  response !! u "connection_status" = Some (VStr (u "Not Connected")).
Proof.
  unfold test_database. destruct db as [d|]; simpl.
  - destruct (exec (list str) list_collection_names s) as [[listing|e] s']; simpl;
      intros [= <-]; (split; [|split; vm_compute; reflexivity]);
      rewrite !dom_insert_L, dom_singleton_L; by_evaluation.
  - intros [= <-]. split; [|split; vm_compute; reflexivity].
    rewrite !dom_insert_L, dom_singleton_L. by_evaluation.
Qed.

End DiagnosticsPayload.

Section CallDiscipline.
Context {Database : Type}.
Variable db : option Database.
Variable str_of : Value -> str.
Variable str_exn : exn -> str.
Variable getenv : str -> option str.
Variable import_module : str -> Result (gmap str PyObject).
Variable model_json_schema : PyObject -> Value.

(** X18: no handler calls the store twice for one request, whatever the
    request and whatever the store answers; the root and the schema
    introspection never call it, and [/test] does not when there is no store
    handle. *)
Theorem handlers_call_the_store_at_most_once
    (collection : str) (limit : Z) (payload : Doc) (file : UploadFile)
    (title tags related_type related_id : option str) :
  calls_at_most_once (list_items db str_of collection limit) ∧
  calls_at_most_once (create_item db collection payload) ∧
  calls_at_most_once (upload_document db file title tags related_type related_id) ∧
  calls_at_most_once (test_database db str_exn getenv) ∧
  (db = None → touches_store (test_database db str_exn getenv) = false) ∧
  touches_store read_root = false ∧
  touches_store (get_schema str_exn import_module model_json_schema) = false.
Proof.
  split; [|split; [|split; [|split; [|split; [|split]]]]].
  - unfold list_items. destruct db; simpl; [|done]. by case_bool_decide.
  - unfold create_item. destruct db; simpl; [|done]. by case_bool_decide.
  - unfold upload_document. by destruct db.
  - unfold test_database. by destruct db.
  - by intros ->.
  - done.
  - unfold get_schema. destruct (import_module (u "schemas")) as [m|e]; [|done].
    pose proof (get_schema_loop_makes_no_call model_json_schema m model_names ∅) as Hloop.
    by destruct (get_schema_loop model_json_schema m model_names ∅).
Qed.

End CallDiscipline.

(** ** The registry and the allow-list *)

(** X19: the allow-list and the registry agree: a collection is allow-listed
    exactly when it is the name, in lower case, of a model that [/schema]
    looks for and that [schemas.py] defines as a [BaseModel] class. *)
Theorem allow_list_matches_the_registry (collection : str) :
  collection ∈ VALID_COLLECTIONS ↔
  ∃ name c, name ∈ model_names ∧ schemas !! name = Some (PyClass c) ∧
            "BaseModel" ∈ bases c ∧ name = u (class_name c) ∧ lower name = collection.
Proof.
  split.
  - intros H. unfold VALID_COLLECTIONS in H.
    repeat (apply elem_of_union in H as [H|H]);
      apply elem_of_singleton in H as ->.
    + exists (u "Tenant"), Tenant. repeat split; by_evaluation.
    + exists (u "Owner"), Owner. repeat split; by_evaluation.
    + exists (u "Property"), Property. repeat split; by_evaluation.
    + exists (u "Lease"), Lease. repeat split; by_evaluation.
    + exists (u "Sale"), Sale. repeat split; by_evaluation.
    + exists (u "Expense"), Expense. repeat split; by_evaluation.
    + exists (u "Document"), Document. repeat split; by_evaluation.
  - intros (name & c & Hname & _ & _ & _ & <-).
    repeat (apply elem_of_cons in Hname as [->|Hname]; [by_evaluation|]).
    by apply elem_of_nil in Hname.
Qed.

Lemma test_database_fixed_fields_witness :
  ∃ response : Doc,
    (run (failing_exec (u "down")) (test_database (Some tt) message_of (fun _ => None))
         tt).1 = Ok (VDict response) ∧
    response !! u "connection_status" = Some (VStr (u "Not Connected")).
Proof.
  eexists. split; [reflexivity|].
  eapply (test_database_fixed_fields (Some tt) message_of (fun _ => None)
            (failing_exec (u "down")) tt).
  reflexivity.
Defined.

Lemma call_discipline_witness :
  touches_store (test_database (@None unit) message_of (fun _ => None)) = false.
Proof.
  destruct (handlers_call_the_store_at_most_once (@None unit) str_of_id message_of
              (fun _ => None) (fun _ => Ok schemas) schema_outline [] 0 ∅ nameless
              None None None None) as (_ & _ & _ & _ & Hnone & _).
  by apply Hnone.
Defined.

Lemma allow_list_witness :
  ∃ name c, name ∈ model_names ∧ schemas !! name = Some (PyClass c) ∧
            "BaseModel" ∈ bases c ∧ name = u (class_name c) ∧ lower name = u "lease".
Proof. apply allow_list_matches_the_registry. by_evaluation. Defined.

(** ** Routing *)

(** A handled request went to the first route whose path and method match. *)
Lemma dispatch_in_handled (rs : list Route) (partial : bool) (method : Method) (path : str)
    (ep : Endpoint) (params : list (str * str)) :
  dispatch_in rs partial method path = Some (Handled ep params) →
  ∃ (i : nat) (r : Route),
    rs !! i = Some r ∧ endpoint r = ep ∧ route_method r = method ∧
    match_path (route_path r) path = Some params ∧
    ∀ (j : nat) (r' : Route),
      (j < i)%nat → rs !! j = Some r' →
      ¬ (route_method r' = method ∧ is_Some (match_path (route_path r') path)).
Proof.
  revert partial. induction rs as [|r rs IH]; intros partial; simpl.
  { by destruct partial. }
  assert (∀ partial',
    ¬ (route_method r = method ∧ is_Some (match_path (route_path r) path)) →
    dispatch_in rs partial' method path = Some (Handled ep params) →
    ∃ (i : nat) (r0 : Route),
      (r :: rs) !! i = Some r0 ∧ endpoint r0 = ep ∧ route_method r0 = method ∧
      match_path (route_path r0) path = Some params ∧
      ∀ (j : nat) (r' : Route),
        (j < i)%nat → (r :: rs) !! j = Some r' →
        ¬ (route_method r' = method ∧ is_Some (match_path (route_path r') path))) as Hnext.
  { intros partial' Hr (i & r0 & Hi & Hep & Hm & Hp & Hbefore)%IH.
    exists (S i), r0. repeat split; try done.
    intros [|j] r' Hj Hr'; [by injection Hr' as <-|].
    apply (Hbefore j); [lia|done]. }
  destruct (match_path (route_path r) path) as [ps|] eqn:Hmatch.
  - case_bool_decide as Hm.
    + intros [= <- <-]. exists 0%nat, r. repeat split; try done. intros j r' Hj. lia.
    + apply Hnext. intros [Heq _]. by destruct Hm.
  - apply Hnext. by intros [_ [? ?]].
Qed.

(** A path that matches [/api/upload] matches [/api/{collection}]. *)
Lemma upload_path_is_a_collection_path (path : str) (params : list (str * str)) :
  match_path "/api/upload" path = Some params →
  is_Some (match_path "/api/{collection}" path).
Proof.
  unfold match_path. generalize (split path 0x2F). intros segments.
  change (compile_path "/api/upload")
    with [Literal []; Literal (u "api"); Literal (u "upload")].
  change (compile_path "/api/{collection}")
    with [Literal []; Literal (u "api"); Param (u "collection")].
  destruct segments as [|s0 [|s1 [|s2 [|s3 ?]]]]; simpl; try done;
    repeat case_bool_decide; subst; try done.
  all: intros _; by eexists.
Qed.

(** X20: no request is ever handled by [upload_document]: its route is
    registered after [POST /api/{collection}], which takes every request that
    the route of the upload matches; this whatever routes not pointing to
    [upload_document] come before those of [main.py].  A [POST] to
    [/api/upload] goes to [create_item] with the collection ["upload"], which,
    the store being configured, answers 404. *)
Theorem upload_document_is_unreachable (before : list Route) :
  (∀ r, r ∈ before → endpoint r ≠ to_upload_document) →
  (∀ method path params,
     dispatch_among (before ++ routes) method path ≠ Handled to_upload_document params) ∧
  dispatch POST (u "/api/upload") =
    Handled to_create_item [(u "collection", u "upload")] ∧
  ∀ (Database : Type) (d : Database) (payload : Doc),
    create_item (Some d) (u "upload") payload =
      Raise (HTTPException 404 (u "Collection not found")).
Proof.
  intros Hbefore. split; [|split; [by vm_compute|]].
  - intros method path params. unfold dispatch_among.
    destruct (dispatch_in (before ++ routes) false method path) as [outcome|] eqn:Hd.
    2: { by destruct (_ && _). }
    intros ->. apply dispatch_in_handled in Hd as (i & r & Hi & Hep & Hm & Hp & Hfirst).
    apply lookup_app_Some in Hi as [Hi|[Hlen Hi]].
    { apply list_elem_of_lookup_2 in Hi. by apply Hbefore in Hi. }
    remember (i - length before)%nat as k eqn:Hk.
    do 6 (destruct k as [|k]; [injection Hi as <-; try done|]); [|done].
    simpl in Hm, Hp. subst method.
    apply (Hfirst (length before + 4)%nat (mkRoute POST "/api/{collection}" to_create_item));
      [lia| |].
    + by rewrite lookup_app_r, Nat.add_comm, Nat.add_sub by lia.
    + split; [done|]. by eapply upload_path_is_a_collection_path.
  - intros Database d payload. unfold create_item. simpl.
    rewrite bool_decide_eq_true_2; [done|]. by_evaluation.
Qed.

Lemma split_without_sep (s : str) (sep : N) : sep ∉ s → split s sep = [s].
Proof.
  induction s as [|c s IH]; [done|]. intros Hs. apply not_elem_of_cons in Hs as [Hc Hs].
  simpl. rewrite (proj2 (N.eqb_neq c sep)) by done. by rewrite IH.
Qed.

(** X21: a request on [/api/] followed by a name, that is, a non-empty
    segment without slash, goes to [list_items] when it is a [GET] and to
    [create_item] when it is a [POST], with that name as the collection. *)
Theorem api_requests_reach_the_gateway (name : str) :
  name ≠ [] → 0x2F ∉ name →
  dispatch GET (u "/api/" ++ name) = Handled to_list_items [(u "collection", name)] ∧
  dispatch POST (u "/api/" ++ name) = Handled to_create_item [(u "collection", name)].
Proof.
  intros Hne Hslash.
  assert (split (u "/api/" ++ name) 0x2F = [[]; u "api"; name]) as Hsplit.
  { change (u "/api/" ++ name) with (0x2F :: 97 :: 112 :: 105 :: 0x2F :: name).
    cbn [split N.eqb Pos.eqb]. by rewrite split_without_sep. }
  assert (∀ route_path, match_path route_path (u "/api/" ++ name) =
            match_segments (compile_path route_path) [[]; u "api"; name]) as Hpath.
  { intros route_path. unfold match_path. by rewrite Hsplit. }
  assert (match_path "/" (u "/api/" ++ name) = None) as Hroot
    by (rewrite Hpath; reflexivity).
  assert (match_path "/test" (u "/api/" ++ name) = None) as Htest
    by (rewrite Hpath; reflexivity).
  assert (match_path "/schema" (u "/api/" ++ name) = None) as Hschema
    by (rewrite Hpath; reflexivity).
  assert (match_path "/api/{collection}" (u "/api/" ++ name) =
            Some [(u "collection", name)]) as Hapi.
  { rewrite Hpath.
    assert (compile_path "/api/{collection}" =
              [Literal []; Literal (u "api"); Param (u "collection")]) as -> by reflexivity.
    cbn [match_segments]. rewrite !bool_decide_eq_true_2 by done.
    by rewrite bool_decide_eq_false_2 by done. }
  unfold dispatch, dispatch_among, routes. cbn [dispatch_in route_path route_method endpoint].
  by rewrite Hroot, Htest, Hschema, Hapi.
Qed.

Lemma upload_document_unreachable_witness :
  dispatch_among (framework_routes ++ routes) POST (u "/api/upload") ≠
    Handled to_upload_document [].
Proof.
  apply (upload_document_is_unreachable framework_routes).
  intros r Hr. repeat (apply elem_of_cons in Hr as [->|Hr]; [done|]).
  by apply elem_of_nil in Hr.
Defined.

Lemma api_requests_witness :
  dispatch GET (u "/api/tenant") = Handled to_list_items [(u "collection", u "tenant")] ∧
  dispatch POST (u "/api/tenant") = Handled to_create_item [(u "collection", u "tenant")].
Proof.
  apply (api_requests_reach_the_gateway (u "tenant")); [discriminate|by_evaluation].
Defined.
